(** * Expense handler (src/api/expense.js, src/api/expenses.js)

    A shallow embedding of the two serverless handlers and of the part of
    the JavaScript runtime they call (string conversion, [parseFloat],
    [String.prototype.trim], the date regular expression, [Date] parsing
    of date-only strings and [Array.prototype.sort]).

    Conventions of the model.
    - A JavaScript string is the list of its UTF-16 code units.
    - A Number is kept as an exact decimal [±m·10^e] (or NaN, ±Infinity):
      rounding to binary64 is not modelled.
    - A request body is a JSON value, or [undefined] when there is none.
    - Abrupt completion (a thrown exception) is explicit: [Throw]. *)

From Stdlib Require Import List NArith ZArith Bool String Ascii Lia.
From Stdlib Require Import Permutation Sorted Finite DecimalPos.
From Stdlib Require DecimalN.
Import ListNotations.

Set Implicit Arguments.

(** ** Completions: a value or a thrown exception *)

Inductive completion (A : Type) : Type :=
| Normal (a : A)
| Throw.

Arguments Normal {A} a.
Arguments Throw {A}.

Definition bind {A B : Type} (c : completion A) (k : A -> completion B)
  : completion B :=
  match c with
  | Normal a => k a
  | Throw => Throw
  end.

Notation "x <- c ;; k" := (bind c (fun x => k))
  (at level 61, c at next level, right associativity).

(** ** Strings *)

Module Str.

Definition t := list N.

(** A literal of the source, as code units. *)
Definition lit (s : string) : t := map N_of_ascii (list_ascii_of_string s).

Fixpoint eqb (a b : t) : bool :=
  match a, b with
  | [], [] => true
  | x :: a', y :: b' => N.eqb x y && eqb a' b'
  | _, _ => false
  end.

Fixpoint starts_with (prefix s : t) : bool :=
  match prefix, s with
  | [], _ => true
  | p :: prefix', c :: s' => N.eqb p c && starts_with prefix' s'
  | _ :: _, [] => false
  end.

(** WhiteSpace and LineTerminator code points (ECMA-262, 12.2 and 12.3):
    what [trim] strips and what [parseFloat] skips. *)
Definition is_white_space (c : N) : bool :=
  ((9 <=? c) && (c <=? 13) || (c =? 32) || (c =? 160) || (c =? 5760)
   || (8192 <=? c) && (c <=? 8202) || (c =? 8232) || (c =? 8233)
   || (c =? 8239) || (c =? 8287) || (c =? 12288) || (c =? 65279))%N.

Definition is_digit (c : N) : bool := ((48 <=? c) && (c <=? 57))%N.

Fixpoint trim_start (s : t) : t :=
  match s with
  | [] => []
  | c :: s' => if is_white_space c then trim_start s' else s
  end.

Fixpoint trim_end (s : t) : t :=
  match s with
  | [] => []
  | c :: s' =>
      match trim_end s' with
      | [] => if is_white_space c then [] else [c]
      | r => c :: r
      end
  end.

(** [String.prototype.trim] *)
Definition trim (s : t) : t := trim_end (trim_start s).

(** The longest prefix of decimal digits, and the rest. *)
Fixpoint span_digits (s : t) : t * t :=
  match s with
  | c :: s' =>
      if is_digit c then let (ds, r) := span_digits s' in (c :: ds, r)
      else ([], s)
  | [] => ([], [])
  end.

(** Mathematical value of a run of decimal digits. *)
Definition digits_value (ds : t) : N :=
  fold_left (fun acc c => (acc * 10 + (c - 48))%N) ds 0%N.

Fixpoint of_uint (u : Decimal.uint) : t :=
  match u with
  | Decimal.Nil => []
  | Decimal.D0 u' => 48%N :: of_uint u'
  | Decimal.D1 u' => 49%N :: of_uint u'
  | Decimal.D2 u' => 50%N :: of_uint u'
  | Decimal.D3 u' => 51%N :: of_uint u'
  | Decimal.D4 u' => 52%N :: of_uint u'
  | Decimal.D5 u' => 53%N :: of_uint u'
  | Decimal.D6 u' => 54%N :: of_uint u'
  | Decimal.D7 u' => 55%N :: of_uint u'
  | Decimal.D8 u' => 56%N :: of_uint u'
  | Decimal.D9 u' => 57%N :: of_uint u'
  end.

(** Decimal digits of a natural number, without leading zeros. *)
Definition of_N (n : N) : t := of_uint (N.to_uint n).

End Str.

Definition jsstring : Type := Str.t.
Notation "'#' s" := (Str.lit s) (at level 1, s at level 0, format "'#' s").

(** ** Numbers *)

Inductive number : Type :=
| NaN
| Infinity (negative : bool)
| Finite (negative : bool) (mantissa : N) (exp10 : Z).

Module Num.

Fixpoint strip_zeros (fuel : nat) (m : N) (e : Z) : N * Z :=
  match fuel with
  | O => (m, e)
  | S fuel' =>
      if (m mod 10 =? 0)%N then strip_zeros fuel' (m / 10)%N (e + 1)%Z
      else (m, e)
  end.

(** The number [±m·10^e] in canonical form: no trailing zero in the
    mantissa, and zero written [0·10^0]. *)
Definition decimal (negative : bool) (m : N) (e : Z) : number :=
  if (m =? 0)%N then Finite negative 0 0
  else let (m', e') := strip_zeros (N.size_nat m) m e in
       Finite negative m' e'.

Definition of_N (n : N) : number := decimal false n 0.

Definition normalize (x : number) : number :=
  match x with
  | Finite s m e => decimal s m e
  | _ => x
  end.

Definition is_nan (x : number) : bool :=
  match x with NaN => true | _ => false end.

Definition is_zero (x : number) : bool :=
  match x with Finite _ m _ => (m =? 0)%N | _ => false end.

Definition sign_prefix (negative : bool) : jsstring :=
  if negative then #"-" else [].

(** Number::toString (ECMA-262, 6.1.6.1.20) for radix 10. With [digits]
    the [k] significant digits and [n = k + e]: plain digits with zeros
    appended, a decimal point inside, a leading [0.], or exponent
    notation. *)
Definition finite_to_string (m : N) (e : Z) : jsstring :=
  let digits := Str.of_N m in
  let k := Z.of_nat (List.length digits) in
  let n := (k + e)%Z in
  if ((k <=? n) && (n <=? 21))%Z then
    digits ++ repeat 48%N (Z.to_nat (n - k))
  else if ((0 <? n) && (n <=? 21))%Z then
    firstn (Z.to_nat n) digits ++ #"." ++ skipn (Z.to_nat n) digits
  else if ((-6 <? n) && (n <=? 0))%Z then
    #"0." ++ repeat 48%N (Z.to_nat (- n)) ++ digits
  else
    let x := (n - 1)%Z in
    let exponent :=
      #"e" ++ (if (x <? 0)%Z then #"-" else #"+") ++ Str.of_N (Z.abs_N x) in
    match digits with
    | [d] => [d] ++ exponent
    | d :: ds => [d] ++ #"." ++ ds ++ exponent
    | [] => exponent
    end.

Definition to_string (x : number) : jsstring :=
  match normalize x with
  | NaN => #"NaN"
  | Infinity negative => sign_prefix negative ++ #"Infinity"
  | Finite negative m e =>
      if (m =? 0)%N then #"0"
      else sign_prefix negative ++ finite_to_string m e
  end.

(** ExponentPart of a StrDecimalLiteral: [e] or [E], an optional sign and
    at least one digit; [0] when there is no such part. *)
Definition exponent_part (s : jsstring) : Z :=
  match s with
  | c :: s' =>
      if ((c =? 101) || (c =? 69))%N then
        let (negative, s'') :=
          match s' with
          | 43%N :: r => (false, r)
          | 45%N :: r => (true, r)
          | _ => (false, s')
          end in
        match fst (Str.span_digits s'') with
        | [] => 0%Z
        | ds => let v := Z.of_N (Str.digits_value ds) in
                if negative then (- v)%Z else v
        end
      else 0%Z
  | [] => 0%Z
  end.

(** The value of the longest prefix of [s] that is a StrDecimalLiteral
    ([Infinity], or digits with an optional fraction and exponent, after
    an optional sign); NaN when no prefix is one. This is steps 4 to 6 of
    [parseFloat] (ECMA-262, 19.2.4), short of the rounding: the value is
    the exact decimal, where the engine rounds to the nearest binary64
    value, with Infinity above its range and zero below it. Whether the
    result is NaN is the same in both. *)
Definition parse_prefix (s : jsstring) : number :=
  let (negative, r) :=
    match s with
    | 43%N :: r => (false, r)
    | 45%N :: r => (true, r)
    | _ => (false, s)
    end in
  if Str.starts_with #"Infinity" r then Infinity negative
  else
    let (int_part, r1) := Str.span_digits r in
    let (frac_part, r2) :=
      match r1 with
      | 46%N :: r' => Str.span_digits r'
      | _ => ([], r1)
      end in
    match int_part ++ frac_part with
    | [] => NaN
    | ds =>
        decimal negative (Str.digits_value ds)
          (exponent_part r2 - Z.of_nat (List.length frac_part))
    end.

(** ToIntegerOrInfinity on a finite number: truncation toward zero. *)
Definition truncate (negative : bool) (m : N) (e : Z) : Z :=
  let magnitude :=
    if (0 <=? e)%Z then (Z.of_N m * 10 ^ e)%Z
    else (Z.of_N m / 10 ^ (- e))%Z in
  if negative then (- magnitude)%Z else magnitude.

End Num.

(** ** Values

    What a parsed JSON body can hold, plus [undefined] (an absent body, an
    absent property). An object is its list of own properties; looking a
    key up takes the first binding. *)

#[warnings="-register-all"]
Inductive value : Type :=
| VUndefined
| VNull
| VBool (b : bool)
| VNumber (x : number)
| VString (s : jsstring)
| VArray (items : list value)
| VObject (props : list (jsstring * value)).

Fixpoint own_property (props : list (jsstring * value)) (key : jsstring)
  : option value :=
  match props with
  | [] => None
  | (k, v) :: props' =>
      if Str.eqb k key then Some v else own_property props' key
  end.

(** ToBoolean *)
Definition truthy (v : value) : bool :=
  match v with
  | VUndefined | VNull => false
  | VBool b => b
  | VNumber x => negb (Num.is_zero x || Num.is_nan x)
  | VString s => match s with [] => false | _ => true end
  | VArray _ | VObject _ => true
  end.

(** [Array.prototype.join] with a comma, over the string conversions of
    the elements: the first one that throws ends the join. *)
Fixpoint join (strings : list (completion jsstring)) : completion jsstring :=
  match strings with
  | [] => Normal []
  | [c] => c
  | c :: strings' =>
      s <- c ;;
      r <- join strings' ;;
      Normal (s ++ #"," ++ r)
  end.

(** ToString. An array joins its elements with commas, [undefined] and
    [null] elements giving the empty string. A plain object answers
    through [Object.prototype.toString], unless it has an own property
    [toString]: a JSON value is never callable, so OrdinaryToPrimitive
    finds no usable method and throws a TypeError. *)
Fixpoint ToString (v : value) : completion jsstring :=
  match v with
  | VUndefined => Normal #"undefined"
  | VNull => Normal #"null"
  | VBool b => Normal (if b then #"true" else #"false")
  | VNumber x => Normal (Num.to_string x)
  | VString s => Normal s
  | VArray items =>
      join (map (fun x => match x with
                          | VUndefined | VNull => Normal []
                          | _ => ToString x
                          end) items)
  | VObject props =>
      match own_property props #"toString" with
      | Some _ => Throw
      | None => Normal #"[object Object]"
      end
  end.

(** The values [ToString] returns on: every object met on the way, through
    arrays, lacks an own property [toString]. *)
Fixpoint convertible (v : value) : bool :=
  match v with
  | VArray items => forallb convertible items
  | VObject props =>
      match own_property props #"toString" with
      | Some _ => false
      | None => true
      end
  | _ => true
  end.

(** [parseFloat(v)]: the argument is converted to a string, leading white
    space is skipped and the longest numeric prefix is read. *)
Definition parseFloat (v : value) : completion number :=
  s <- ToString v ;;
  Normal (Num.parse_prefix (Str.trim_start s)).

Definition isNaN (x : number) : bool := Num.is_nan x.

(** [/^\d{4}-\d{2}-\d{2}$/]: a small matcher for the three constructs the
    pattern is made of. Neither the [m] nor the [u] flag is set: [\d] is
    an ASCII digit and [$] is the end of the input. *)
Module Regex.

Inductive atom : Type :=
| Digits (count : nat)
| Char (c : N).

Fixpoint digits (count : nat) (s : jsstring) : option jsstring :=
  match count with
  | O => Some s
  | S count' =>
      match s with
      | c :: s' => if Str.is_digit c then digits count' s' else None
      | [] => None
      end
  end.

Definition step (a : atom) (s : jsstring) : option jsstring :=
  match a with
  | Digits count => digits count s
  | Char c =>
      match s with
      | c' :: s' => if (c =? c')%N then Some s' else None
      | [] => None
      end
  end.

(** An anchored match of the whole input. *)
Fixpoint matches (pattern : list atom) (s : jsstring) : bool :=
  match pattern with
  | [] => match s with [] => true | _ => false end
  | a :: pattern' =>
      match step a s with
      | Some s' => matches pattern' s'
      | None => false
      end
  end.

Definition date_pattern : list atom :=
  [Digits 4; Char 45; Digits 2; Char 45; Digits 2].

(** [pattern.test(v)] converts its argument to a string first. *)
Definition test (pattern : list atom) (v : value) : completion bool :=
  s <- ToString v ;;
  Normal (matches pattern s).

End Regex.

(** ** Dates

    The time value (milliseconds since the epoch, [None] for NaN) of
    [new Date(v)]. Node's parser reads a date-only string [YYYY-MM-DD] as
    UTC midnight, takes any month in 1..12 and any day in 1..31, and lets
    a day past the end of the month run into the next one; a month or day
    outside these ranges gives an invalid date. Date-only strings are the
    only ones validation lets into the store; every other string is
    mapped to NaN here. *)
Module Date.

(** Days from 1970-01-01 to the given day of the proleptic Gregorian
    calendar ([month] in 1..12). *)
Definition days_from_civil (year month day : Z) : Z :=
  let y := if (month <=? 2)%Z then (year - 1)%Z else year in
  let era := (y / 400)%Z in
  let year_of_era := (y - era * 400)%Z in
  let shifted := if (month <=? 2)%Z then (month + 9)%Z else (month - 3)%Z in
  let day_of_year := ((153 * shifted + 2) / 5 + day - 1)%Z in
  let day_of_era :=
    (year_of_era * 365 + year_of_era / 4 - year_of_era / 100
     + day_of_year)%Z in
  (era * 146097 + day_of_era - 719468)%Z.

Definition ms_per_day : Z := 86400000.

Definition parse (s : jsstring) : option Z :=
  if Regex.matches Regex.date_pattern s then
    let year := Z.of_N (Str.digits_value (firstn 4 s)) in
    let month := Z.of_N (Str.digits_value (firstn 2 (skipn 5 s))) in
    let day := Z.of_N (Str.digits_value (skipn 8 s)) in
    if ((1 <=? month) && (month <=? 12) && (1 <=? day) && (day <=? 31))%Z
    then Some (days_from_civil year month day * ms_per_day)%Z
    else None
  else None.

(** TimeClip of a number. *)
Definition time_clip (x : number) : option Z :=
  match x with
  | Finite negative m e =>
      let t := Num.truncate negative m e in
      if (Z.abs t <=? 8640000000000000)%Z then Some t else None
  | _ => None
  end.

(** [new Date(v)]: an object or array is first brought to a primitive,
    which for JSON values is its string conversion; a string is parsed;
    anything else is converted to a number. *)
Definition time_value (v : value) : completion (option Z) :=
  match v with
  | VString s => Normal (parse s)
  | VArray _ | VObject _ => s <- ToString v ;; Normal (parse s)
  | VNumber x => Normal (time_clip x)
  | VBool b => Normal (Some (if b then 1 else 0)%Z)
  | VNull => Normal (Some 0%Z)
  | VUndefined => Normal None
  end.

(** [d1 - d2] on two dates: NaN as soon as one of them is invalid. *)
Definition minus (t1 t2 : option Z) : option Z :=
  match t1, t2 with
  | Some a, Some b => Some (a - b)%Z
  | _, _ => None
  end.

End Date.

(** ** Array.prototype.sort

    The array is sorted in place and returned. ECMA-262 leaves the
    algorithm to the engine and asks for a stable sort; a NaN coming out
    of the comparison function counts as [0] (SortCompare). The model is
    insertion sort, each element moving left past the elements that
    compare greater than it. An exception in the comparison function ends
    the sort and leaves the array as it was. Every stable sort gives the
    same result when the comparison function is consistent; when it is
    not (NaN against a date that can be read), engines may order the
    elements differently from this one. *)
Module Sort.

Section WithComparator.

Variable A : Type.
Variable comparefn : A -> A -> completion (option Z).

(** SortCompare *)
Definition sort_compare (x y : A) : completion Z :=
  v <- comparefn x y ;;
  Normal (match v with Some z => z | None => 0%Z end).

(** [rev_prefix] is the sorted prefix, last element first. *)
Fixpoint insert (x : A) (rev_prefix : list A) : completion (list A) :=
  match rev_prefix with
  | [] => Normal [x]
  | y :: rest =>
      c <- sort_compare y x ;;
      if (0 <? c)%Z then
        rest' <- insert x rest ;;
        Normal (y :: rest')
      else Normal (x :: y :: rest)
  end.

Fixpoint insert_all (rev_prefix : list A) (l : list A)
  : completion (list A) :=
  match l with
  | [] => Normal rev_prefix
  | x :: l' =>
      p <- insert x rev_prefix ;;
      insert_all p l'
  end.

Definition sort (l : list A) : completion (list A) :=
  r <- insert_all [] l ;;
  Normal (rev r).

End WithComparator.

End Sort.

(** ** The expense store *)

Record expense : Type := Expense {
  id : jsstring;
  amount : number;
  description : jsstring;
  category : jsstring;
  date : value
}.

(** The module-level array [expenses] as it is when the process starts. *)
Definition expenses : list expense :=
  [ Expense #"e1" (Num.decimal false 4599 (-2))
      #"Groceries at Trader Joe's" #"Food" (VString #"2025-11-28");
    Expense #"e2" (Num.decimal false 12000 (-2))
      #"Electricity Bill" #"Utilities" (VString #"2025-11-30");
    Expense #"e3" (Num.decimal false 2550 (-2))
      #"Coffee with client" #"Misc" (VString #"2025-12-01") ].

(** Code that reads and updates the array and may throw: the array is
    threaded through, so an exception keeps whatever was written before
    it was raised. *)
Definition action (A : Type) : Type :=
  list expense -> completion A * list expense.

Definition ret {A : Type} (a : A) : action A :=
  fun store => (Normal a, store).

Definition lift {A : Type} (c : completion A) : action A :=
  fun store => (c, store).

Definition and_then {A B : Type} (m : action A) (k : A -> action B)
  : action B :=
  fun store =>
    match m store with
    | (Normal a, store') => k a store'
    | (Throw, store') => (Throw, store')
    end.

Notation "x <~ m ;; k" := (and_then m (fun x => k))
  (at level 61, m at next level, right associativity).

(** [try { body } catch (error) { handler }] *)
Definition try_catch {A : Type} (body handler : action A) : action A :=
  fun store =>
    match body store with
    | (Normal a, store') => (Normal a, store')
    | (Throw, store') => handler store'
    end.

(** [expenses.push(e)] *)
Definition push (e : expense) : action unit :=
  fun store => (Normal tt, store ++ [e]).

(** ** validateExpense *)

(** Reading one of the four fields of the payload. Destructuring
    [undefined] or [null] throws; a primitive or an array has none of
    these properties. *)
Definition get (data : value) (key : jsstring) : completion value :=
  match data with
  | VUndefined | VNull => Throw
  | VObject props =>
      Normal (match own_property props key with
              | Some v => v
              | None => VUndefined
              end)
  | _ => Normal VUndefined
  end.

Definition amount_message : jsstring :=
  #"Missing or invalid 'amount'. Must be a number.".
Definition description_message : jsstring :=
  #"Missing or invalid 'description'. Must be a non-empty string.".
Definition category_message : jsstring :=
  #"Missing or invalid 'category'. Must be a non-empty string.".
Definition date_message : jsstring :=
  #"Missing or invalid 'date'. Must be in YYYY-MM-DD format.".

(** The condition of each [if]: [true] when the message is pushed. *)

(** [!amount || isNaN(parseFloat(amount))] *)
Definition amount_check (v : value) : completion bool :=
  if negb (truthy v) then Normal true
  else x <- parseFloat v ;; Normal (isNaN x).

(** [!s || typeof s !== 'string' || s.trim().length === 0], the test of
    both [description] and [category]. *)
Definition text_check (v : value) : bool :=
  if negb (truthy v) then true
  else
    match v with
    | VString s => (List.length (Str.trim s) =? 0)%nat
    | _ => true
    end.

(** [!date || !/^\d{4}-\d{2}-\d{2}$/.test(date)] *)
Definition date_check (v : value) : completion bool :=
  if negb (truthy v) then Normal true
  else b <- Regex.test Regex.date_pattern v ;; Normal (negb b).

Definition push_if (failed : bool) (message : jsstring)
  (errors : list jsstring) : list jsstring :=
  if failed then errors ++ [message] else errors.

Definition validateExpense (data : value) : completion (list jsstring) :=
  amount <- get data #"amount" ;;
  description <- get data #"description" ;;
  category <- get data #"category" ;;
  date <- get data #"date" ;;
  let errors := [] in
  failed <- amount_check amount ;;
  let errors := push_if failed amount_message errors in
  let errors := push_if (text_check description) description_message errors in
  let errors := push_if (text_check category) category_message errors in
  failed <- date_check date ;;
  let errors := push_if failed date_message errors in
  Normal errors.

(** ** The handler *)

Record request : Type := Request {
  method : jsstring;
  (** Reading [req.body] gives the parsed body, [undefined] when there is
      none, or throws when the platform could not parse it. *)
  body : completion value
}.

(** The object handed to [JSON.stringify]. *)
Inductive json : Type :=
| ExpenseList (data : list expense)
| Created (message : jsstring) (data : expense)
| Failure (error : jsstring) (details : option (list jsstring)).

Record response : Type := Response {
  status : N;
  headers : list (jsstring * jsstring);
  content : option json
}.

Definition cors_headers : list (jsstring * jsstring) :=
  [ (#"Access-Control-Allow-Origin", #"*");
    (#"Access-Control-Allow-Methods", #"GET, POST, OPTIONS");
    (#"Access-Control-Allow-Headers", #"Content-Type") ].

Definition json_response (code : N) (j : json) : response :=
  Response code (cors_headers ++ [(#"Content-Type", #"application/json")])
    (Some j).

(** [(a, b) => new Date(b.date) - new Date(a.date)] *)
Definition by_date_descending (a b : expense) : completion (option Z) :=
  tb <- Date.time_value (date b) ;;
  ta <- Date.time_value (date a) ;;
  Normal (Date.minus tb ta).

(** [expenses.sort(...)]: sorts the array itself and returns it. *)
Definition sort_expenses : action (list expense) :=
  fun store =>
    match Sort.sort by_date_descending store with
    | Normal sorted => (Normal sorted, sorted)
    | Throw => (Throw, store)
    end.

(** [v.trim()]: only a string has the method. *)
Definition trim_method (v : value) : completion jsstring :=
  match v with
  | VString s => Normal (Str.trim s)
  | _ => Throw
  end.

(** [newExpense || {}] *)
Definition or_empty_object (v : value) : value :=
  if truthy v then v else VObject [].

Section Handler.

(** What is handed to [validateExpense]: [newExpense || {}] in
    expense.js, [newExpense] in expenses.js. The two files are otherwise
    the same code. *)
Variable validated : value -> value.

(** The body of the [try] block of the POST branch. [now] is what
    [Date.now()] returns. *)
Definition post (now : N) (req : request) : action response :=
  newExpense <~ lift (body req) ;;
  validationErrors <~ lift (validateExpense (validated newExpense)) ;;
  if (0 <? List.length validationErrors)%nat then
    ret (json_response 400
           (Failure #"Validation Failed" (Some validationErrors)))
  else
    let expenseId := #"e" ++ Num.to_string (Num.of_N now) in
    amount <~ lift (v <- get newExpense #"amount" ;; parseFloat v) ;;
    description <~
      lift (v <- get newExpense #"description" ;; trim_method v) ;;
    category <~ lift (v <- get newExpense #"category" ;; trim_method v) ;;
    date <~ lift (get newExpense #"date") ;;
    let expense := Expense expenseId amount description category date in
    _ <~ push expense ;;
    ret (json_response 201 (Created #"Expense added successfully" expense)).

Definition internal_error : response :=
  json_response 500
    (Failure #"Internal Server Error during expense creation" None).

Definition handler_with (now : N) (req : request) : action response :=
  if Str.eqb (method req) #"OPTIONS" then
    ret (Response 204 cors_headers None)
  else if Str.eqb (method req) #"GET" then
    data <~ sort_expenses ;;
    ret (json_response 200 (ExpenseList data))
  else if Str.eqb (method req) #"POST" then
    try_catch (post now req) (ret internal_error)
  else
    ret (json_response 405
           (Failure (#"Method " ++ method req ++ #" Not Allowed") None)).

End Handler.

(** [module.exports] of src/api/expense.js *)
Module ExpenseJs.
Definition handler : N -> request -> action response :=
  handler_with or_empty_object.
End ExpenseJs.

(** [module.exports] of src/api/expenses.js *)
Module ExpensesJs.
Definition handler : N -> request -> action response :=
  handler_with (fun newExpense => newExpense).
End ExpensesJs.

(** ** Properties stated about the handlers *)

(** A request with the given method and parsed body. *)
Definition GET : request := Request #"GET" (Normal VUndefined).
Definition POST (payload : value) : request :=
  Request #"POST" (Normal payload).

(** Four digits, a hyphen, two digits, a hyphen, two digits. *)
Definition ascii_digit (c : N) : Prop := (48 <= c <= 57)%N.

Definition date_shaped (s : jsstring) : Prop :=
  exists y1 y2 y3 y4 m1 m2 d1 d2,
    s = [y1; y2; y3; y4; 45; m1; m2; 45; d1; d2]%N /\
    Forall ascii_digit [y1; y2; y3; y4; m1; m2; d1; d2].

(** The date of [a] is at or after the date of [b], as [Date] values: an
    invalid date compares with nothing. *)
Definition date_ge (a b : expense) : Prop :=
  match Date.time_value (date a), Date.time_value (date b) with
  | Normal (Some ta), Normal (Some tb) => (tb <= ta)%Z
  | _, _ => False
  end.

(** The stored date is one [Date] can read. *)
Definition readable_date (e : expense) : Prop :=
  exists t, Date.time_value (date e) = Normal (Some t).

(** The stored date went through the check of [validateExpense]. *)
Definition checked_date (e : expense) : Prop :=
  date_check (date e) = Normal false.

(** [undefined] and [null], which have no properties to read. *)
Definition nullish (v : value) : bool :=
  match v with VUndefined | VNull => true | _ => false end.

(** The four fields of a payload, and which of them fail their check. *)
Inductive field : Type := Amount | Description | Category | DateField.

Definition all_fields : list field :=
  [Amount; Description; Category; DateField].

Definition key_of (f : field) : jsstring :=
  match f with
  | Amount => #"amount"
  | Description => #"description"
  | Category => #"category"
  | DateField => #"date"
  end.

Definition message_of (f : field) : jsstring :=
  match f with
  | Amount => amount_message
  | Description => description_message
  | Category => category_message
  | DateField => date_message
  end.

Definition check_of (f : field) (v : value) : completion bool :=
  match f with
  | Amount => amount_check v
  | Description | Category => Normal (text_check v)
  | DateField => date_check v
  end.

(** The value of a field of the payload, [undefined] when absent. *)
Definition field_value (data : value) (f : field) : value :=
  match get data (key_of f) with
  | Normal v => v
  | Throw => VUndefined
  end.

Definition fails (data : value) (f : field) : bool :=
  match check_of f (field_value data f) with
  | Normal b => b
  | Throw => false
  end.

(** The record the POST branch builds from a payload at time [now]. *)
Definition new_expense (now : N) (payload : value) : completion expense :=
  amount <- (v <- get payload #"amount" ;; parseFloat v) ;;
  description <- (v <- get payload #"description" ;; trim_method v) ;;
  category <- (v <- get payload #"category" ;; trim_method v) ;;
  date <- get payload #"date" ;;
  Normal (Expense (#"e" ++ Num.to_string (Num.of_N now))
            amount description category date).

Definition created (e : expense) : response :=
  json_response 201 (Created #"Expense added successfully" e).

Definition validation_failed (details : list jsstring) : response :=
  json_response 400 (Failure #"Validation Failed" (Some details)).

(** The two handlers of the repository. *)
Definition handlers : list (N -> request -> action response) :=
  [ExpenseJs.handler; ExpensesJs.handler].

(** A comparison function that is the difference of a key on the elements
    of [l], and lists ordered by that key. *)
Definition keyed (A : Type) (comparefn : A -> A -> completion (option Z))
  (key : A -> Z) (l : list A) : Prop :=
  forall x y, In x l -> In y l ->
              comparefn x y = Normal (Some (key y - key x)%Z).

Definition ascending (A : Type) (key : A -> Z) : list A -> Prop :=
  StronglySorted (fun a b => (key a <= key b)%Z).

Definition descending (A : Type) (key : A -> Z) : list A -> Prop :=
  StronglySorted (fun a b => (key b <= key a)%Z).

(** The time value sorting goes by, for a date that has one. *)
Definition time_of (e : expense) : Z :=
  match Date.time_value (date e) with
  | Normal (Some t) => t
  | _ => 0%Z
  end.

(** A stored record as the data model describes it. *)
Record well_formed (e : expense) : Prop := WellFormed {
  wf_id : exists rest, id e = 101%N :: rest;
  wf_amount : Num.is_nan (amount e) = false;
  wf_description : description e <> [] /\
                   Str.trim (description e) = description e;
  wf_category : category e <> [] /\ Str.trim (category e) = category e;
  wf_date : exists s, ToString (date e) = Normal s /\ date_shaped s
}.

(** The states of the array in a running process: the seed records, then
    any sequence of requests to either handler. *)
Inductive reachable : list expense -> Prop :=
| reachable_start : reachable expenses
| reachable_expense (store : list expense) (now : N) (req : request) :
    reachable store ->
    reachable (snd (ExpenseJs.handler now req store))
| reachable_expenses (store : list expense) (now : N) (req : request) :
    reachable store ->
    reachable (snd (ExpensesJs.handler now req store)).

(** Payloads used as examples. *)
Definition lunch : value :=
  VObject [(#"amount", VNumber (Num.of_N 50));
           (#"description", VString #"Lunch");
           (#"category", VString #" Food ");
           (#"date", VString #"2025-12-05")].

Definition three_failures : value :=
  VObject [(#"amount", VString #"abc");
           (#"description", VString #"");
           (#"category", VString #"Food");
           (#"date", VString #"12/05/2025")].

Definition tea (date : jsstring) : value :=
  VObject [(#"amount", VNumber (Num.of_N 5));
           (#"description", VString #"Tea");
           (#"category", VString #"Food");
           (#"date", VString date)].

Definition month_thirteen : value := tea #"2025-13-40".

Definition february_thirtieth : value := tea #"2025-02-30".

Definition refund : value :=
  VObject [(#"amount", VString #"-12.5");
           (#"description", VString #"Refund");
           (#"category", VString #"Misc");
           (#"date", VString #"2025-12-05")].

(** ** Further properties: definitions *)

(** The store after any number of requests to either handler. *)
Inductive evolves : list expense -> list expense -> Prop :=
| evolves_refl (store : list expense) : evolves store store
| evolves_step (store store' : list expense)
    (handler : N -> request -> action response) (now : N) (req : request) :
    evolves store store' -> In handler handlers ->
    evolves store (snd (handler now req store')).

(** The status codes the handler writes. *)
Definition statuses : list N := [200; 201; 204; 400; 405; 500]%N.

Definition four_messages : list jsstring :=
  [amount_message; description_message; category_message; date_message].

Definition method_not_allowed (m : jsstring) : response :=
  json_response 405 (Failure (#"Method " ++ m ++ #" Not Allowed") None).

(** The key is one of the four that [validateExpense] reads. *)
Definition read_key (k : jsstring) : bool :=
  existsb (Str.eqb k) (map key_of all_fields).

(** The string has a character that is not white space. *)
Definition has_text (s : jsstring) : bool :=
  existsb (fun c => negb (Str.is_white_space c)) s.

(** Neither the first nor the last character is white space. *)
Definition tight (s : jsstring) : Prop :=
  (forall c r, s = c :: r -> Str.is_white_space c = false) /\
  (forall c r, s = r ++ [c] -> Str.is_white_space c = false).

(** The elements with key [k], in list order. *)
Definition with_key (A : Type) (key : A -> Z) (k : Z) (l : list A)
  : list A :=
  filter (fun a => (key a =? k)%Z) l.

(** Records dated [t], in list order. *)
Definition dated (t : Z) (l : list expense) : list expense :=
  with_key time_of t l.

Definition delete_request : request := Request #"DELETE" (Normal VUndefined).

(** Two records of one day around a record of the day before. *)
Definition tied : list expense :=
  [ Expense #"e10" (Num.of_N 1) #"First" #"Food" (VString #"2025-12-01");
    Expense #"e11" (Num.of_N 2) #"Earlier" #"Food" (VString #"2025-11-30");
    Expense #"e12" (Num.of_N 3) #"Second" #"Food" (VString #"2025-12-01") ].

(** A payload with one property more than the four. *)
Definition annotated (props : list (jsstring * value)) : value :=
  VObject ((#"note", VString #"x") :: props).

Definition whole (n : N) : value :=
  VObject [(#"amount", VNumber (Num.of_N n));
           (#"description", VString #"Lunch");
           (#"category", VString #"Food");
           (#"date", VString #"2025-12-05")].

Unset Implicit Arguments.

(** ** Sorting *)

Section SortFacts.

Variable A : Type.
Variable comparefn : A -> A -> completion (option Z).

Lemma insert_permutation (x : A) (p r : list A) :
  Sort.insert comparefn x p = Normal r -> Permutation (x :: p) r.
Proof.
  revert r; induction p as [|y p IH]; simpl; intros r H.
  - injection H as <-. apply Permutation_refl.
  - unfold Sort.sort_compare in H.
    destruct (comparefn y x) as [v|]; simpl in H; [|discriminate].
    destruct (0 <? _)%Z.
    + destruct (Sort.insert comparefn x p) as [r'|] eqn:E;
        simpl in H; [|discriminate].
      injection H as <-.
      apply perm_trans with (y :: x :: p); [apply perm_swap|].
      apply perm_skip, IH; reflexivity.
    + injection H as <-. apply Permutation_refl.
Qed.

Lemma insert_all_permutation (l p r : list A) :
  Sort.insert_all comparefn p l = Normal r -> Permutation (l ++ p) r.
Proof.
  revert p r; induction l as [|x l IH]; simpl; intros p r H.
  - injection H as <-. apply Permutation_refl.
  - destruct (Sort.insert comparefn x p) as [p'|] eqn:E;
      simpl in H; [|discriminate].
    apply insert_permutation in E. apply IH in H.
    apply perm_trans with (l ++ x :: p); [apply Permutation_middle|].
    apply perm_trans with (l ++ p'); [|exact H].
    apply Permutation_app_head, E.
Qed.

Lemma sort_permutation (l r : list A) :
  Sort.sort comparefn l = Normal r -> Permutation l r.
Proof.
  unfold Sort.sort; intros H.
  destruct (Sort.insert_all comparefn [] l) as [p|] eqn:E;
    simpl in H; [|discriminate].
  injection H as <-. apply insert_all_permutation in E.
  rewrite app_nil_r in E.
  apply perm_trans with p; [exact E | apply Permutation_rev].
Qed.

(** When the comparison function is the difference of a key on the
    elements at hand, the sort returns, and in descending key order. *)
Variable key : A -> Z.

Lemma insert_ascending (x : A) (p : list A) :
  keyed comparefn key (x :: p) -> ascending key p ->
  exists r, Sort.insert comparefn x p = Normal r /\ ascending key r /\
            (forall z, In z r <-> In z (x :: p)).
Proof.
  induction p as [|y p IH]; intros K S.
  - exists [x]; repeat split; auto.
    repeat constructor.
  - simpl. unfold Sort.sort_compare.
    rewrite (K y x) by (simpl; auto). simpl.
    destruct (0 <? key x - key y)%Z eqn:C.
    + destruct IH as (r & E & Sr & Ir).
      * intros a b Ha Hb. apply K; simpl in *; tauto.
      * inversion S; assumption.
      * rewrite E; simpl. exists (y :: r); repeat split.
        -- constructor; [exact Sr|].
           apply Forall_forall; intros z Hz. apply Ir in Hz.
           destruct Hz as [<-|Hz]; [apply Z.ltb_lt in C; lia|].
           inversion S as [|? ? _ F]; subst.
           rewrite Forall_forall in F; auto.
        -- simpl; intros [<-|H]; [tauto|]. apply Ir in H; simpl in H; tauto.
        -- simpl; intros [<-|[<-|H]];
             [right; apply Ir; simpl; auto | auto
             | right; apply Ir; simpl; auto].
    + exists (x :: y :: p); repeat split; auto.
      constructor; [exact S|].
      apply Z.ltb_ge in C.
      constructor; [lia|].
      inversion S as [|? ? _ F]; subst.
      apply Forall_forall; intros z Hz.
      rewrite Forall_forall in F. specialize (F z Hz). lia.
Qed.

Lemma insert_all_ascending (l p : list A) :
  keyed comparefn key (l ++ p) -> ascending key p ->
  exists r, Sort.insert_all comparefn p l = Normal r /\ ascending key r.
Proof.
  revert p; induction l as [|x l IH]; simpl; intros p K S.
  - exists p; auto.
  - destruct (@insert_ascending x p) as (r & E & Sr & Ir).
    + intros a b Ha Hb; apply K; simpl in *;
        rewrite in_app_iff; tauto.
    + exact S.
    + rewrite E; simpl. apply IH; [|exact Sr].
      intros a b Ha Hb. apply K; simpl;
        rewrite in_app_iff in *; rewrite ?Ir in *; simpl in *; tauto.
Qed.

Lemma ascending_rev (l : list A) : ascending key l -> descending key (rev l).
Proof.
  induction 1 as [|x l S IH F]; simpl; [constructor|].
  assert (G : forall m, descending key m ->
              Forall (fun a => (key x <= key a)%Z) m ->
              descending key (m ++ [x])).
  { induction 1 as [|a m Sm IHm Fm]; simpl; intros Hx.
    - repeat constructor.
    - inversion Hx; subst. constructor.
      + apply IHm; assumption.
      + apply Forall_app; split; [exact Fm | repeat constructor; assumption]. }
  apply G; [exact IH|].
  apply Forall_forall; intros a Ha. apply in_rev in Ha.
  rewrite Forall_forall in F; auto.
Qed.

Lemma sort_descending (l : list A) :
  keyed comparefn key l ->
  exists r, Sort.sort comparefn l = Normal r /\ descending key r.
Proof.
  intros K. destruct (@insert_all_ascending l []) as (r & E & S).
  - rewrite app_nil_r; exact K.
  - constructor.
  - unfold Sort.sort. rewrite E; simpl.
    exists (rev r); split; [reflexivity | apply ascending_rev, S].
Qed.

End SortFacts.

(** ** Strings, numbers and the date pattern *)

Lemma is_digit_spec (c : N) : Str.is_digit c = true <-> ascii_digit c.
Proof.
  unfold Str.is_digit, ascii_digit.
  rewrite andb_true_iff, !N.leb_le. tauto.
Qed.

Lemma trim_start_head (s : jsstring) :
  match Str.trim_start s with
  | [] => True
  | c :: _ => Str.is_white_space c = false
  end.
Proof.
  induction s as [|c s IH]; simpl; [exact I|].
  destruct (Str.is_white_space c) eqn:E; [exact IH | exact E].
Qed.

Lemma trim_start_fixed (c : N) (s : jsstring) :
  Str.is_white_space c = false -> Str.trim_start (c :: s) = c :: s.
Proof. intros H; simpl; rewrite H; reflexivity. Qed.

Lemma trim_end_head (c : N) (s : jsstring) :
  Str.is_white_space c = false ->
  exists r, Str.trim_end (c :: s) = c :: r.
Proof.
  intros H; simpl. destruct (Str.trim_end s) as [|d r].
  - rewrite H. exists []; reflexivity.
  - exists (d :: r); reflexivity.
Qed.

Lemma trim_end_idempotent (s : jsstring) :
  Str.trim_end (Str.trim_end s) = Str.trim_end s.
Proof.
  induction s as [|c s IH]; simpl; [reflexivity|].
  destruct (Str.trim_end s) as [|d r] eqn:E.
  - destruct (Str.is_white_space c) eqn:W; simpl; [reflexivity|].
    rewrite W; reflexivity.
  - change (Str.trim_end (c :: d :: r)) with
      (match Str.trim_end (d :: r) with
       | [] => if Str.is_white_space c then [] else [c]
       | x :: r' => c :: x :: r'
       end).
    rewrite IH; reflexivity.
Qed.

Lemma trim_idempotent (s : jsstring) : Str.trim (Str.trim s) = Str.trim s.
Proof.
  unfold Str.trim. pose proof (trim_start_head s) as H.
  destruct (Str.trim_start s) as [|c t]; [reflexivity|].
  destruct (trim_end_head c t H) as [r E].
  rewrite E, (trim_start_fixed c r H), <- E. apply trim_end_idempotent.
Qed.

Lemma date_pattern_shaped (s : jsstring) :
  Regex.matches Regex.date_pattern s = true <-> date_shaped s.
Proof.
  split.
  - intros H.
    cbv beta iota fix delta
      [Regex.matches Regex.date_pattern Regex.step Regex.digits] in H.
    repeat match type of H with
    | context [match ?l with [] => _ | _ :: _ => _ end] =>
        destruct l as [|? ?]; try discriminate H
    | context [if Str.is_digit ?c then _ else _] =>
        let E := fresh "D" in
        destruct (Str.is_digit c) eqn:E; try discriminate H;
        apply is_digit_spec in E
    | context [if (?a =? ?c)%N then _ else _] =>
        let E := fresh "E" in
        destruct (N.eqb_spec a c) as [E|E]; try discriminate H; subst
    end.
    unfold date_shaped. do 8 eexists. split; [reflexivity|].
    repeat (apply Forall_cons; [assumption|]). apply Forall_nil.
  - intros (y1 & y2 & y3 & y4 & m1 & m2 & d1 & d2 & -> & F).
    repeat match goal with
    | F : Forall _ (_ :: _) |- _ => inversion F; subst; clear F
    | D : ascii_digit _ |- _ => apply is_digit_spec in D
    end.
    cbv beta iota fix delta
      [Regex.matches Regex.date_pattern Regex.step Regex.digits].
    repeat first
      [ rewrite N.eqb_refl
      | match goal with
        | D : Str.is_digit _ = true |- _ => rewrite D; clear D
        end ].
    reflexivity.
Qed.

Lemma zero_to_string (x : number) :
  Num.is_zero x = true -> Num.to_string x = #"0".
Proof.
  destruct x as [| |s m e]; simpl; try discriminate.
  intros H. apply N.eqb_eq in H; subst. reflexivity.
Qed.

Lemma falsy_number (x : number) :
  Num.is_zero x || Num.is_nan x = true ->
  Num.to_string x = #"0" \/ Num.to_string x = #"NaN".
Proof.
  intros H; apply orb_true_iff in H as [H|H].
  - left; apply zero_to_string, H.
  - right; destruct x; try discriminate; reflexivity.
Qed.

(** A falsy value never reads as a date ... *)
Lemma falsy_not_date (v : value) (s : jsstring) :
  truthy v = false -> ToString v = Normal s ->
  Regex.matches Regex.date_pattern s = false.
Proof.
  destruct v as [| |b|x|t|items|props]; simpl; intros F E;
    try discriminate F; try (injection E as <-; reflexivity).
  - subst b. injection E as <-. reflexivity.
  - apply negb_false_iff, falsy_number in F.
    injection E as <-. destruct F as [-> | ->]; reflexivity.
  - destruct t; [|discriminate F]. injection E as <-. reflexivity.
Qed.


(** The string form of a timestamp is its decimal digits: exponent
    notation starts at 10^21. *)
Lemma of_uint_revapp (d d' : Decimal.uint) :
  Str.of_uint (Decimal.revapp d d') = rev (Str.of_uint d) ++ Str.of_uint d'.
Proof.
  revert d'; induction d; intros d'; simpl; [reflexivity|..];
    rewrite IHd; simpl; rewrite <- app_assoc; reflexivity.
Qed.

Lemma of_N_tenfold (m : N) :
  m <> 0%N -> Str.of_N (10 * m) = Str.of_N m ++ [48%N].
Proof.
  destruct m as [|p]; [contradiction|]; intros _.
  unfold Str.of_N.
  change (10 * N.pos p)%N with (N.pos (10 * p)).
  unfold N.to_uint, Pos.to_uint, Decimal.rev.
  pose proof (Unsigned.to_ldec_tenfold p) as H.
  change (Pos.to_little_uint (10 * p) = Decimal.D0 (Pos.to_little_uint p)) in H.
  rewrite H. cbn [Decimal.revapp].
  rewrite !of_uint_revapp. cbn [Str.of_uint].
  rewrite app_nil_r. reflexivity.
Qed.

Lemma strip_zeros_digits (fuel : nat) (m : N) (e : Z) :
  m <> 0%N ->
  let (m', e') := Num.strip_zeros fuel m e in
  m' <> 0%N /\ (e <= e')%Z /\
  Str.of_N m = Str.of_N m' ++ repeat 48%N (Z.to_nat (e' - e)).
Proof.
  revert m e; induction fuel as [|fuel IH]; intros m e Hm; cbn [Num.strip_zeros].
  - rewrite Z.sub_diag, app_nil_r. repeat split; [exact Hm | lia].
  - destruct (N.eqb_spec (m mod 10) 0) as [E|E].
    + assert (D : m = (10 * (m / 10))%N).
      { rewrite (N.div_mod m 10) at 1 by discriminate. rewrite E. lia. }
      assert (Q : (m / 10 <> 0)%N) by lia.
      specialize (IH (m / 10)%N (e + 1)%Z Q).
      destruct (Num.strip_zeros fuel (m / 10) (e + 1)) as [m' e'].
      destruct IH as (H1 & H2 & H3).
      repeat split; [exact H1 | lia |].
      rewrite D at 1. rewrite (of_N_tenfold _ Q), H3, <- app_assoc.
      f_equal.
      replace (Z.to_nat (e' - e)) with (Z.to_nat (e' - (e + 1)) + 1)%nat by lia.
      rewrite repeat_app. reflexivity.
    + rewrite Z.sub_diag, app_nil_r. repeat split; [exact Hm | lia].
Qed.

Lemma timestamp_to_string (now : N) :
  (List.length (Str.of_N now) <= 21)%nat ->
  Num.to_string (Num.of_N now) = Str.of_N now.
Proof.
  intros L. unfold Num.of_N, Num.decimal.
  destruct (N.eqb_spec now 0) as [->|Hn]; [reflexivity|].
  pose proof (strip_zeros_digits (N.size_nat now) now 0 Hn) as S1.
  destruct (Num.strip_zeros (N.size_nat now) now 0) as [m1 e1].
  destruct S1 as (H1 & E1 & D1).
  unfold Num.to_string, Num.normalize, Num.decimal.
  destruct (N.eqb_spec m1 0) as [?|_]; [contradiction|].
  pose proof (strip_zeros_digits (N.size_nat m1) m1 e1 H1) as S2.
  destruct (Num.strip_zeros (N.size_nat m1) m1 e1) as [m2 e2].
  destruct S2 as (H2 & E2 & D2).
  destruct (N.eqb_spec m2 0) as [?|_]; [contradiction|].
  cbn [Num.sign_prefix app]. unfold Num.finite_to_string.
  rewrite D1, D2, <- app_assoc, <- repeat_app in L |- *.
  rewrite length_app, repeat_length in L.
  set (k := List.length (Str.of_N m2)) in *.
  replace ((Z.of_nat k <=? Z.of_nat k + e2)%Z) with true
    by (symmetry; apply Z.leb_le; lia).
  replace ((Z.of_nat k + e2 <=? 21)%Z) with true
    by (symmetry; apply Z.leb_le; lia).
  cbn [andb]. f_equal. f_equal. lia.
Qed.

(** ** String conversion that throws *)

Lemma value_nested_ind (P : value -> Prop) :
  P VUndefined -> P VNull -> (forall b, P (VBool b)) ->
  (forall x, P (VNumber x)) -> (forall s, P (VString s)) ->
  (forall items, Forall P items -> P (VArray items)) ->
  (forall props, P (VObject props)) ->
  forall v, P v.
Proof.
  intros Hu Hn Hb Hx Hs Ha Ho. fix IH 1. intros v.
  destruct v as [| |b|x|s|items|props];
    [exact Hu | exact Hn | apply Hb | apply Hx | apply Hs | | apply Ho].
  apply Ha. induction items as [|i items IHitems]; constructor.
  - apply IH.
  - exact IHitems.
Qed.

Lemma join_returns (strings : list (completion jsstring)) :
  join strings <> Throw <-> Forall (fun c => c <> Throw) strings.
Proof.
  induction strings as [|c strings IH].
  - split; [constructor | discriminate].
  - change (join (c :: strings)) with
      (match strings with
       | [] => c
       | _ :: _ => s <- c ;; r <- join strings ;; Normal (s ++ #"," ++ r)
       end).
    rewrite Forall_cons_iff, <- IH.
    destruct strings as [|c' strings].
    + split; [intros H; split; [exact H | discriminate] | tauto].
    + destruct c as [s|]; cbn [bind]; [|tauto].
      destruct (join (c' :: strings)) as [r|]; cbn [bind].
      * split; [intros _; split; discriminate | discriminate].
      * tauto.
Qed.

Lemma ToString_convertible (v : value) :
  convertible v = true <-> ToString v <> Throw.
Proof.
  induction v as [| |b|x|s|items IH|props] using value_nested_ind;
    try (split; [discriminate | reflexivity]).
  - cbn [convertible ToString].
    rewrite join_returns, Forall_map, forallb_forall, Forall_forall.
    rewrite Forall_forall in IH.
    split; intros H i Hi; specialize (H i Hi); specialize (IH i Hi).
    + destruct i; try discriminate; apply IH, H.
    + apply IH. destruct i; try discriminate; exact H.
  - cbn [convertible ToString].
    destruct (own_property props #"toString");
      split; try discriminate; try reflexivity;
      intros H; contradiction H; reflexivity.
Qed.

Lemma convertible_amount_check (v : value) :
  convertible v = true -> amount_check v <> Throw.
Proof.
  intros C. apply ToString_convertible in C.
  unfold amount_check, parseFloat.
  destruct (truthy v); cbn [negb]; [|discriminate].
  destruct (ToString v); [discriminate | contradiction].
Qed.

Lemma convertible_date_check (v : value) :
  convertible v = true -> date_check v <> Throw.
Proof.
  intros C. apply ToString_convertible in C.
  unfold date_check, Regex.test.
  destruct (truthy v); cbn [negb]; [|discriminate].
  destruct (ToString v); [discriminate | contradiction].
Qed.

(** ** validateExpense *)

Lemma get_field (data : value) (f : field) :
  get data (key_of f) =
  if nullish data then Throw else Normal (field_value data f).
Proof.
  unfold field_value.
  destruct data; simpl; try reflexivity.
Qed.

(** The four checks all run, whatever the earlier ones found, and each
    failing one contributes its message once, in source order. *)
Lemma validateExpense_spec (data : value) :
  validateExpense data =
  if nullish data then Throw
  else
    _ <- amount_check (field_value data Amount) ;;
    _ <- date_check (field_value data DateField) ;;
    Normal (map message_of (filter (fails data) all_fields)).
Proof.
  unfold validateExpense.
  change #"amount" with (key_of Amount).
  change #"description" with (key_of Description).
  change #"category" with (key_of Category).
  change #"date" with (key_of DateField).
  rewrite !get_field.
  destruct (nullish data); [reflexivity|].
  cbn [bind all_fields filter].
  unfold fails. cbn [check_of].
  destruct (amount_check (field_value data Amount)) as [fa|];
    [|reflexivity].
  cbn [bind].
  destruct (date_check (field_value data DateField)) as [fd|];
    [|reflexivity].
  cbn [bind].
  destruct fa, (text_check (field_value data Description)),
    (text_check (field_value data Category)), fd; reflexivity.
Qed.

Lemma validateExpense_passes (data : value) :
  validateExpense data = Normal [] <->
  nullish data = false /\
  amount_check (field_value data Amount) = Normal false /\
  text_check (field_value data Description) = false /\
  text_check (field_value data Category) = false /\
  date_check (field_value data DateField) = Normal false.
Proof.
  rewrite validateExpense_spec.
  destruct (nullish data); [split; [discriminate | intros [H _]; discriminate]|].
  unfold fails; cbn [all_fields filter check_of].
  destruct (amount_check (field_value data Amount)) as [fa|];
    [|split; [discriminate | intros (_ & H & _); discriminate]].
  destruct (date_check (field_value data DateField)) as [fd|];
    [|split; [discriminate | intros (_ & _ & _ & _ & H); discriminate]].
  cbn [bind].
  destruct fa, (text_check (field_value data Description)),
    (text_check (field_value data Category)), fd; cbn [map];
    split; try discriminate; try tauto;
    intros (_ & A & B & C & D); discriminate.
Qed.

Lemma text_check_passes (v : value) :
  text_check v = false <->
  exists s, v = VString s /\ Str.trim s <> [].
Proof.
  unfold text_check. split.
  - intros H. destruct (truthy v) eqn:T; simpl in H; [|discriminate].
    destruct v as [| |b|x|s|items|props]; try discriminate.
    exists s; split; [reflexivity|].
    intros E; rewrite E in H; discriminate.
  - intros (s & -> & H). simpl.
    destruct s as [|c s]; [exfalso; apply H; reflexivity|].
    simpl negb. cbn iota.
    destruct (Str.trim (c :: s)); [exfalso; apply H|]; reflexivity.
Qed.

Lemma amount_check_passes (v : value) :
  amount_check v = Normal false <->
  truthy v = true /\
  exists x, parseFloat v = Normal x /\ Num.is_nan x = false.
Proof.
  unfold amount_check, isNaN. destruct (truthy v); simpl.
  - destruct (parseFloat v) as [x|]; simpl.
    + split.
      * intros H; injection H as H. split; [reflexivity|].
        exists x; auto.
      * intros (_ & y & E & H). injection E as ->. rewrite H; reflexivity.
    + split; [discriminate | intros (_ & y & E & _); discriminate].
  - split; [discriminate | intros [H _]; discriminate].
Qed.

Lemma date_check_passes (v : value) :
  date_check v = Normal false <->
  exists s, ToString v = Normal s /\ date_shaped s.
Proof.
  unfold date_check, Regex.test. split.
  - destruct (truthy v); cbn [negb bind]; [|discriminate].
    destruct (ToString v) as [s|]; cbn [bind]; [|discriminate].
    intros H. exists s; split; [reflexivity|].
    apply date_pattern_shaped.
    destruct (Regex.matches Regex.date_pattern s);
      [reflexivity | discriminate H].
  - intros (s & E & H). apply date_pattern_shaped in H.
    destruct (truthy v) eqn:T; cbn [negb bind].
    + rewrite E; cbn [bind]. rewrite H; reflexivity.
    + rewrite (falsy_not_date v s T E) in H; discriminate.
Qed.

(** ** The POST branch *)

Section Post.

Variable validated : value -> value.

Lemma post_unfold (now : N) (req : request) (store : list expense) :
  try_catch (post validated now req) (ret internal_error) store =
  match body req with
  | Throw => (Normal internal_error, store)
  | Normal payload =>
      match validateExpense (validated payload) with
      | Throw => (Normal internal_error, store)
      | Normal [] =>
          match new_expense now payload with
          | Normal e => (Normal (created e), store ++ [e])
          | Throw => (Normal internal_error, store)
          end
      | Normal details => (Normal (validation_failed details), store)
      end
  end.
Proof.
  unfold try_catch, post, new_expense, and_then, lift, ret, push.
  destruct (body req) as [payload|]; [|reflexivity].
  destruct (validateExpense (validated payload)) as [[|m details]|];
    [|reflexivity|reflexivity].
  cbn [List.length Nat.ltb Nat.leb].
  destruct (v <- get payload #"amount" ;; parseFloat v); [|reflexivity].
  destruct (v <- get payload #"description" ;; trim_method v);
    [|reflexivity].
  destruct (v <- get payload #"category" ;; trim_method v); [|reflexivity].
  destruct (get payload #"date"); reflexivity.
Qed.

(** Whatever the request, the array is left as it was, or reordered by
    the sort of a GET, or given one more record by a POST. *)
Lemma handler_store (now : N) (req : request) (store : list expense) :
  let store' := snd (handler_with validated now req store) in
  Permutation store store' \/
  exists payload e,
    body req = Normal payload /\
    validateExpense (validated payload) = Normal [] /\
    new_expense now payload = Normal e /\
    store' = store ++ [e].
Proof.
  unfold handler_with.
  destruct (Str.eqb (method req) #"OPTIONS"); [left; apply Permutation_refl|].
  destruct (Str.eqb (method req) #"GET").
  - left. unfold and_then, sort_expenses, ret.
    destruct (Sort.sort by_date_descending store) as [sorted|] eqn:E;
      cbn [snd].
    + apply sort_permutation in E; exact E.
    + apply Permutation_refl.
  - destruct (Str.eqb (method req) #"POST"); [|left; apply Permutation_refl].
    rewrite post_unfold.
    destruct (body req) as [payload|]; [|left; apply Permutation_refl].
    destruct (validateExpense (validated payload)) as [[|m details]|] eqn:V;
      try (left; apply Permutation_refl).
    destruct (new_expense now payload) as [e|] eqn:B;
      [|left; apply Permutation_refl].
    right. exists payload, e. auto.
Qed.

End Post.

Lemma handler_GET (validated : value -> value) (now : N)
    (b : completion value) (store : list expense) :
  handler_with validated now (Request #"GET" b) store =
  match Sort.sort by_date_descending store with
  | Normal sorted => (Normal (json_response 200 (ExpenseList sorted)), sorted)
  | Throw => (Throw, store)
  end.
Proof.
  unfold handler_with, and_then, sort_expenses, ret.
  change (Str.eqb (method (Request #"GET" b)) #"OPTIONS") with false.
  change (Str.eqb (method (Request #"GET" b)) #"GET") with true.
  cbv beta iota. destruct (Sort.sort by_date_descending store); reflexivity.
Qed.

Lemma handler_POST (validated : value -> value) (now : N)
    (b : completion value) (store : list expense) :
  handler_with validated now (Request #"POST" b) store =
  try_catch (post validated now (Request #"POST" b)) (ret internal_error)
    store.
Proof. reflexivity. Qed.

Lemma message_of_injective (f g : field) :
  message_of f = message_of g -> f = g.
Proof.
  destruct f, g; intros H; try reflexivity; vm_compute in H; discriminate H.
Qed.

Lemma field_value_or_empty_object (payload : value) (f : field) :
  field_value (or_empty_object payload) f = field_value payload f.
Proof.
  unfold or_empty_object.
  destruct payload as [| |[|]|x|[|c s]|items|props]; try reflexivity.
  cbn [truthy]. destruct (negb _); reflexivity.
Qed.

(** A payload that passes validation has the four fields the record is
    built from. *)
Lemma valid_payload (now : N) (payload : value) :
  validateExpense payload = Normal [] ->
  exists a x s_description s_category d,
    get payload #"amount" = Normal a /\
    parseFloat a = Normal x /\ Num.is_nan x = false /\
    get payload #"description" = Normal (VString s_description) /\
    Str.trim s_description <> [] /\
    get payload #"category" = Normal (VString s_category) /\
    Str.trim s_category <> [] /\
    get payload #"date" = Normal d /\
    date_check d = Normal false /\
    new_expense now payload =
      Normal (Expense (#"e" ++ Num.to_string (Num.of_N now)) x
                (Str.trim s_description) (Str.trim s_category) d).
Proof.
  intros V. apply validateExpense_passes in V as (N0 & A & D & C & T).
  apply amount_check_passes in A as (_ & x & P & Hx).
  apply text_check_passes in D as (sd & Ed & Hd).
  apply text_check_passes in C as (sc & Ec & Hc).
  exists (field_value payload Amount), x, sd, sc,
    (field_value payload DateField).
  pose proof (get_field payload Amount) as GA.
  pose proof (get_field payload Description) as GD.
  pose proof (get_field payload Category) as GC.
  pose proof (get_field payload DateField) as GT.
  rewrite N0 in GA, GD, GC, GT. cbn [key_of] in GA, GD, GC, GT.
  rewrite Ed in GD. rewrite Ec in GC.
  unfold new_expense. rewrite GA, GD, GC, GT. cbn [bind trim_method].
  rewrite P. cbn [bind]. repeat split; auto.
Qed.

Lemma or_empty_object_valid (payload : value) :
  validateExpense (or_empty_object payload) = Normal [] ->
  or_empty_object payload = payload.
Proof.
  unfold or_empty_object. destruct (truthy payload); [reflexivity|].
  intros H; vm_compute in H; discriminate H.
Qed.

Lemma valid_or_empty_object (payload : value) :
  validateExpense payload = Normal [] -> or_empty_object payload = payload.
Proof.
  intros V. unfold or_empty_object.
  destruct payload as [| |b|x|s|items|props]; try reflexivity;
    vm_compute in V; discriminate V.
Qed.

(** ** GET *)

(** C1, as stated, fails on the seed records: [sort] works on the array
    itself, so the first GET of a process leaves the three records stored
    in the order it returns them (e3, e2, e1), not in the order they were
    stored. *)
Lemma get_reorders_store :
  snd (ExpenseJs.handler 0 GET expenses) = rev expenses /\
  snd (ExpenseJs.handler 0 GET expenses) <> expenses.
Proof.
  split; [vm_compute; reflexivity|].
  intros H. vm_compute in H.
  injection H as H _. discriminate H.
Qed.

(** C1, amended: for every state of the store, handling a GET request
    neither adds, removes nor alters a record. The stored list after the
    request is a rearrangement of the stored list before it, and when the
    handler answers it answers 200 with exactly the list it leaves in the
    store. *)
Theorem get_permutes_store (now : N) (b : completion value)
    (store : list expense) :
  Forall
    (fun handler =>
       let result := handler now (Request #"GET" b) store in
       Permutation store (snd result) /\
       forall res, fst result = Normal res ->
                   res = json_response 200 (ExpenseList (snd result)))
    handlers.
Proof.
  assert (G : forall validated,
             let result :=
               handler_with validated now (Request #"GET" b) store in
             Permutation store (snd result) /\
             forall res, fst result = Normal res ->
                         res = json_response 200 (ExpenseList (snd result))).
  { intros validated. cbv zeta. rewrite handler_GET.
    destruct (Sort.sort by_date_descending store) as [sorted|] eqn:E;
      cbn [fst snd].
    - split; [eapply sort_permutation; exact E|].
      intros res H; injection H as <-; reflexivity.
    - split; [apply Permutation_refl | discriminate]. }
  unfold handlers.
  apply Forall_cons; [apply G|].
  apply Forall_cons; [apply G | apply Forall_nil].
Qed.

(** Dates that can be read are sorted in descending order. *)
Lemma by_date_keyed (l : list expense) :
  Forall readable_date l -> keyed by_date_descending time_of l.
Proof.
  intros R x y Hx Hy. rewrite Forall_forall in R.
  destruct (R x Hx) as [tx Ex], (R y Hy) as [ty Ey].
  unfold by_date_descending, time_of. rewrite Ex, Ey. reflexivity.
Qed.

Lemma descending_date_ge (l : list expense) :
  Forall readable_date l -> descending time_of l ->
  StronglySorted date_ge l.
Proof.
  intros R S; induction S as [|x l S IH F]; [constructor|].
  inversion R as [|? ? Rx Rl]; subst.
  constructor; [apply IH, Rl|].
  rewrite Forall_forall in *. intros y Hy.
  specialize (F y Hy). destruct Rx as [tx Ex], (Rl y Hy) as [ty Ey].
  unfold date_ge, time_of in *. rewrite Ex, Ey in *. exact F.
Qed.

(** C2 at an input where the code breaks it. The source announces the
    list of GET as sorted by date descending, but a date that passes the
    check need not be one [Date] can read, and the comparison with an
    unreadable date is NaN, which the sort takes as a tie. After a first
    GET, two POSTs dated 2025-13-40 and 2025-12-05 leave both records at
    the end of the array; the next GET returns the record of 2025-12-01
    before the one of 2025-12-05, two dates that are both valid. *)
Lemma get_not_sorted :
  let s1 := snd (ExpenseJs.handler 0 GET expenses) in
  let s2 := snd (ExpenseJs.handler 1 (POST (tea #"2025-13-40")) s1) in
  let s3 := snd (ExpenseJs.handler 2 (POST (tea #"2025-12-05")) s2) in
  Forall checked_date s3 /\
  exists data,
    fst (ExpenseJs.handler 3 GET s3) =
      Normal (json_response 200 (ExpenseList data)) /\
    map date data =
      [VString #"2025-12-01"; VString #"2025-11-30"; VString #"2025-11-28";
       VString #"2025-13-40"; VString #"2025-12-05"] /\
    ~ StronglySorted date_ge data.
Proof.
  cbv zeta. split.
  - vm_compute. repeat constructor.
  - eexists. split; [vm_compute; reflexivity|].
    split; [vm_compute; reflexivity|].
    intros S. apply StronglySorted_inv in S as [_ F].
    rewrite Forall_forall in F.
    match type of F with
    | forall x, In x ?l -> _ =>
        specialize (F (last l (Expense [] NaN [] [] VNull)))
    end.
    vm_compute in F. apply F; [|reflexivity]. tauto.
Qed.

(** Where the sort does its work: when every stored date is one [Date]
    can read, GET answers 200 and returns the records in non-increasing
    order of the time values [Date] gives their dates. The order is that
    of the comparison function's own reading of a date, in which a day
    past the end of its month is a day of the next month. *)
Theorem get_sorted_by_date (now : N) (b : completion value)
    (store : list expense) :
  Forall readable_date store ->
  exists data,
    ExpenseJs.handler now (Request #"GET" b) store =
      (Normal (json_response 200 (ExpenseList data)), data) /\
    StronglySorted date_ge data.
Proof.
  intros R. unfold ExpenseJs.handler. rewrite handler_GET.
  destruct (sort_descending expense by_date_descending time_of store
              (by_date_keyed store R)) as (data & E & S).
  rewrite E. exists data; split; [reflexivity|].
  apply descending_date_ge; [|exact S].
  apply sort_permutation in E.
  eapply Permutation_Forall; eassumption.
Qed.

Lemma get_sorted_by_date_witness :
  exists data,
    ExpenseJs.handler 0 GET expenses =
      (Normal (json_response 200 (ExpenseList data)), data) /\
    StronglySorted date_ge data.
Proof.
  apply (get_sorted_by_date 0 (Normal VUndefined) expenses).
  repeat constructor; eexists; vm_compute; reflexivity.
Defined.

(** ** POST *)

(** C3: for every POST payload that passes the four validations, the
    handler answers 201, and the expense it returns is the one it appends:
    its amount is [parseFloat] of the input amount, its description and
    category are the trimmed input strings, its date is the input date as
    it came, and its id is [e] followed by the millisecond timestamp. Both
    files behave so. *)
Theorem post_valid_creates (now : N) (store : list expense)
    (payload : value) :
  validateExpense payload = Normal [] ->
  exists a x s_description s_category d,
    get payload #"amount" = Normal a /\
    parseFloat a = Normal x /\
    get payload #"description" = Normal (VString s_description) /\
    get payload #"category" = Normal (VString s_category) /\
    get payload #"date" = Normal d /\
    let e :=
      Expense (#"e" ++ Num.to_string (Num.of_N now)) x
        (Str.trim s_description) (Str.trim s_category) d in
    Forall
      (fun handler =>
         handler now (POST payload) store =
           (Normal (json_response 201
                      (Created #"Expense added successfully" e)),
            store ++ [e]))
      handlers /\
    ((List.length (Str.of_N now) <= 21)%nat ->
     id e = #"e" ++ Str.of_N now).
Proof.
  intros V.
  destruct (valid_payload now payload V)
    as (a & x & sd & sc & d & Ga & P & _ & Gd & _ & Gc & _ & Gt & _ & B).
  exists a, x, sd, sc, d. repeat (split; [assumption|]).
  cbv zeta. split;
    [|intros L; cbn [id]; rewrite (timestamp_to_string now L); reflexivity].
  unfold handlers, ExpenseJs.handler, ExpensesJs.handler, POST.
  apply Forall_cons; [|apply Forall_cons; [|apply Forall_nil]];
    rewrite handler_POST, post_unfold; cbn [body].
  - rewrite (valid_or_empty_object payload V), V, B. reflexivity.
  - rewrite V, B. reflexivity.
Qed.

Lemma post_valid_creates_witness :
  let e :=
    Expense #"e1764936000000" (Num.of_N 50) #"Lunch" #"Food"
      (VString #"2025-12-05") in
  ExpenseJs.handler 1764936000000 (POST lunch) expenses =
    (Normal (json_response 201 (Created #"Expense added successfully" e)),
     expenses ++ [e]).
Proof.
  destruct (post_valid_creates 1764936000000 expenses lunch)
    as (a & x & sd & sc & d & Ga & P & Gd & Gc & Gt & H);
    [vm_compute; reflexivity|].
  vm_compute in Ga, P, Gd, Gc, Gt.
  injection Ga as <-. injection P as <-. injection Gd as <-.
  injection Gc as <-. injection Gt as <-.
  destruct H as [H _]. apply Forall_inv in H. exact H.
Defined.

(** C4, as stated, fails: a check can throw instead of failing. An amount
    that is an object with a property of its own named [toString] is
    truthy and cannot be converted to a string, so [parseFloat] throws;
    the other three fields are missing, and the answer is 500, not 400. *)
Lemma invalid_payload_500 :
  let payload :=
    VObject [(#"amount", VObject [(#"toString", VNumber (Num.of_N 1))])] in
  get payload #"description" = Normal VUndefined /\
  text_check VUndefined = true /\
  ExpenseJs.handler 0 (POST payload) expenses =
    (Normal internal_error, expenses) /\
  status internal_error = 500%N.
Proof. cbv zeta. repeat split; vm_compute; reflexivity. Qed.

(** C4, amended: for every POST payload whose amount and date can be
    converted to a string (neither is, or holds, an object with a
    property of its own named [toString]) and which has one or more
    invalid or missing fields, expense.js answers 400 with error
    'Validation Failed', leaves the store as it was, and gives in details
    exactly one message per failing field, in the order amount,
    description, category, date; all four checks run. *)
Theorem post_invalid_400 (now : N) (store : list expense)
    (payload : value) :
  convertible (field_value payload Amount) = true ->
  convertible (field_value payload DateField) = true ->
  (exists f, fails payload f = true) ->
  let details := map message_of (filter (fails payload) all_fields) in
  ExpenseJs.handler now (POST payload) store =
    (Normal (json_response 400
               (Failure #"Validation Failed" (Some details))),
     store) /\
  NoDup details /\
  (forall f, In (message_of f) details <-> fails payload f = true) /\
  List.length details = List.length (filter (fails payload) all_fields).
Proof.
  cbv zeta. intros CA CD [f Ff].
  apply convertible_amount_check in CA.
  apply convertible_date_check in CD.
  assert (N0 : nullish (or_empty_object payload) = false).
  { unfold or_empty_object.
    destruct payload as [| |[|]|x|[|c s]|items|props]; try reflexivity.
    cbn [truthy]. destruct (negb _); reflexivity. }
  assert (Hf : In f (filter (fails payload) all_fields)).
  { apply filter_In; split; [|exact Ff].
    destruct f; simpl; tauto. }
  repeat split.
  - unfold ExpenseJs.handler, POST.
    rewrite handler_POST, post_unfold; cbn [body].
    rewrite validateExpense_spec, N0.
    rewrite (filter_ext (fails (or_empty_object payload)) (fails payload))
      by (intros g; unfold fails;
          rewrite field_value_or_empty_object; reflexivity).
    rewrite !field_value_or_empty_object.
    destruct (amount_check (field_value payload Amount)); [|contradiction].
    destruct (date_check (field_value payload DateField)); [|contradiction].
    cbn [bind].
    destruct (filter (fails payload) all_fields) as [|g l];
      [destruct Hf | reflexivity].
  - apply Finite.Injective_map_NoDup; [exact message_of_injective|].
    apply NoDup_filter. unfold all_fields.
    repeat constructor; simpl; intuition discriminate.
  - intros H. apply in_map_iff in H as (g & E & H).
    apply message_of_injective in E; subst g. apply filter_In in H; tauto.
  - intros H. apply in_map. apply filter_In; split; [|exact H].
    destruct f0; simpl; tauto.
  - apply length_map.
Qed.

Lemma post_invalid_400_witness :
  ExpenseJs.handler 0 (POST three_failures) expenses =
    (Normal (json_response 400
               (Failure #"Validation Failed"
                  (Some [amount_message; description_message;
                         date_message]))),
     expenses).
Proof.
  apply (post_invalid_400 0 expenses three_failures).
  - reflexivity.
  - reflexivity.
  - exists Amount. vm_compute; reflexivity.
Defined.

(** C5: POST is atomic. For every request body (present, absent, or one
    the platform cannot read) and every starting state, either the answer
    is 201 and exactly one record is appended to the store, or the answer
    is 400 or 500 and the store is unchanged. Both files behave so. *)
Theorem post_atomic (now : N) (b : completion value)
    (store : list expense) :
  Forall
    (fun handler =>
       let result := handler now (Request #"POST" b) store in
       (exists e,
          result = (Normal (created e), store ++ [e]) /\
          status (created e) = 201%N) \/
       (exists res,
          result = (Normal res, store) /\
          (status res = 400%N \/ status res = 500%N)))
    handlers.
Proof.
  assert (G : forall validated,
             let result :=
               handler_with validated now (Request #"POST" b) store in
             (exists e,
                result = (Normal (created e), store ++ [e]) /\
                status (created e) = 201%N) \/
             (exists res,
                result = (Normal res, store) /\
                (status res = 400%N \/ status res = 500%N))).
  { intros validated. cbv zeta. rewrite handler_POST, post_unfold.
    cbn [body].
    destruct b as [payload|];
      [|right; exists internal_error; auto].
    destruct (validateExpense (validated payload)) as [[|m details]|];
      [|right; eexists; split; [reflexivity | left; reflexivity]
       |right; exists internal_error; auto].
    destruct (new_expense now payload) as [e|];
      [left; exists e; auto | right; exists internal_error; auto]. }
  unfold handlers.
  apply Forall_cons; [apply G|].
  apply Forall_cons; [apply G | apply Forall_nil].
Qed.

(** ** Field checks *)

(** When validation returns, each check has returned, and a message is
    in the list exactly when its check failed. *)
Lemma validateExpense_returns (data : value) (errs : list jsstring) :
  validateExpense data = Normal errs ->
  exists failed_amount failed_date,
    amount_check (field_value data Amount) = Normal failed_amount /\
    date_check (field_value data DateField) = Normal failed_date /\
    (In amount_message errs <-> failed_amount = true) /\
    (In date_message errs <-> failed_date = true).
Proof.
  rewrite validateExpense_spec.
  destruct (nullish data); [discriminate|].
  destruct (amount_check (field_value data Amount)) as [fa|] eqn:A;
    [|discriminate].
  destruct (date_check (field_value data DateField)) as [fd|] eqn:D;
    [|discriminate].
  cbn [bind]. intros H; injection H as <-.
  exists fa, fd. split; [reflexivity|]. split; [reflexivity|].
  assert (M : forall f,
             In (message_of f) (map message_of (filter (fails data) all_fields))
             <-> fails data f = true).
  { intros f. rewrite in_map_iff. split.
    - intros (g & E & H). apply message_of_injective in E; subst g.
      apply filter_In in H; tauto.
    - intros H. exists f; split; [reflexivity|].
      apply filter_In; split; [destruct f; simpl; tauto | exact H]. }
  split.
  - rewrite (M Amount). unfold fails; cbn [check_of]. rewrite A. tauto.
  - rewrite (M DateField). unfold fails; cbn [check_of]. rewrite D. tauto.
Qed.

(** C6: for every POST payload that validation runs through, there is no
    date message exactly when the date field, as a string, is four
    digits, a hyphen, two digits, a hyphen and two digits; a missing date
    fails. Nothing looks at the calendar: 2025-13-40 and 2025-02-30
    pass. *)
Theorem date_format_only (data : value) (errs : list jsstring) :
  (validateExpense data = Normal errs ->
   (~ In date_message errs <->
    exists s, ToString (field_value data DateField) = Normal s /\
              date_shaped s)) /\
  (forall v, date_check v = Normal false <->
             exists s, ToString v = Normal s /\ date_shaped s) /\
  (forall s, date_check (VString s) = Normal false <-> date_shaped s) /\
  date_check VUndefined = Normal true /\
  date_check (VString #"2025-13-40") = Normal false /\
  date_check (VString #"2025-02-30") = Normal false.
Proof.
  split; [|split; [|split; [|repeat split; vm_compute; reflexivity]]].
  - intros V.
    destruct (validateExpense_returns data errs V)
      as (fa & fd & _ & D & _ & M).
    rewrite <- date_check_passes, D, M.
    destruct fd; split; congruence.
  - exact date_check_passes.
  - intros s. rewrite date_check_passes. cbn [ToString]. split.
    + intros (t & E & H). injection E as <-. exact H.
    + intros H. exists s; auto.
Qed.

Lemma date_format_only_witness :
  (validateExpense month_thirteen = Normal [] /\ ~ In date_message []) /\
  (validateExpense february_thirtieth = Normal [] /\ ~ In date_message []).
Proof.
  split; (split; [vm_compute; reflexivity|]).
  - apply (proj1 (date_format_only month_thirteen []));
      [vm_compute; reflexivity|].
    exists #"2025-13-40"; split; [vm_compute; reflexivity|].
    apply date_pattern_shaped; vm_compute; reflexivity.
  - apply (proj1 (date_format_only february_thirtieth []));
      [vm_compute; reflexivity|].
    exists #"2025-02-30"; split; [vm_compute; reflexivity|].
    apply date_pattern_shaped; vm_compute; reflexivity.
Defined.



(** ** The two files *)

(** C8 at the input where the two files part: a POST whose body is absent
    ([undefined], and [null] alike). expense.js validates an empty object
    and answers 400 with the four messages; expenses.js destructures the
    body itself, which throws, and answers 500. *)
Theorem absent_body_diverges (now : N) (store : list expense) :
  Forall
    (fun absent =>
       ExpenseJs.handler now (POST absent) store =
         (Normal (validation_failed
                    [amount_message; description_message;
                     category_message; date_message]),
          store) /\
       ExpensesJs.handler now (POST absent) store =
         (Normal internal_error, store))
    [VUndefined; VNull] /\
  status (validation_failed []) = 400%N /\
  status internal_error = 500%N.
Proof.
  split; [|split; reflexivity].
  repeat (apply Forall_cons; [split; reflexivity|]). apply Forall_nil.
Qed.

(** On every other request the two files do the same. *)
Lemma validated_or_empty_object (payload : value) :
  nullish payload = false ->
  validateExpense (or_empty_object payload) = validateExpense payload.
Proof.
  intros N0. unfold or_empty_object.
  destruct (truthy payload) eqn:T; [reflexivity|].
  destruct payload as [| |b|x|s|items|props]; try discriminate; reflexivity.
Qed.

Lemma handlers_agree (now : N) (req : request) (store : list expense) :
  body req <> Normal VUndefined -> body req <> Normal VNull ->
  ExpenseJs.handler now req store = ExpensesJs.handler now req store.
Proof.
  intros U N0. unfold ExpenseJs.handler, ExpensesJs.handler, handler_with.
  destruct (Str.eqb (method req) #"OPTIONS"); [reflexivity|].
  destruct (Str.eqb (method req) #"GET"); [reflexivity|].
  destruct (Str.eqb (method req) #"POST"); [|reflexivity].
  rewrite !post_unfold.
  destruct (body req) as [payload|]; [|reflexivity].
  rewrite validated_or_empty_object; [reflexivity|].
  destruct payload; try reflexivity; congruence.
Qed.

(** ** Reachable states *)

Lemma seed_well_formed : Forall well_formed expenses.
Proof.
  unfold expenses.
  repeat (apply Forall_cons; [|try apply Forall_nil]);
    (constructor; cbn [id amount description category date];
     [ eexists; reflexivity
     | reflexivity
     | split; [discriminate | reflexivity]
     | split; [discriminate | reflexivity]
     | apply date_check_passes; reflexivity ]).
Qed.

Lemma new_expense_well_formed (now : N) (payload : value) (e : expense) :
  validateExpense payload = Normal [] ->
  new_expense now payload = Normal e -> well_formed e.
Proof.
  intros V B.
  destruct (valid_payload now payload V)
    as (a & x & sd & sc & d & _ & _ & Hx & _ & Hd & _ & Hc & _ & Ht & B').
  rewrite B' in B. injection B as <-.
  constructor; cbn [id amount description category date].
  - eexists; reflexivity.
  - exact Hx.
  - split; [exact Hd | apply trim_idempotent].
  - split; [exact Hc | apply trim_idempotent].
  - apply date_check_passes, Ht.
Qed.

Lemma handler_preserves (validated : value -> value) :
  (forall payload, validateExpense (validated payload) = Normal [] ->
                   validated payload = payload) ->
  forall now req store,
    Forall well_formed store ->
    Forall well_formed (snd (handler_with validated now req store)).
Proof.
  intros Hv now req store W.
  destruct (handler_store validated now req store)
    as [P | (payload & e & _ & V & B & ->)].
  - eapply Permutation_Forall; eassumption.
  - apply Forall_app; split; [exact W|].
    apply Forall_cons; [|apply Forall_nil].
    apply (new_expense_well_formed now payload); [|exact B].
    rewrite <- (Hv payload V); exact V.
Qed.

(** C9: in every state the array can reach from the three seed records by
    requests to either handler, every stored expense has its five fields
    populated and valid: an id starting with [e], an amount that is a
    number (not NaN), a description and a category that are non-empty and
    equal to their trimmed form, and a date whose string form is four
    digits, a hyphen, two digits, a hyphen and two digits. *)
Theorem reachable_well_formed (store : list expense) :
  reachable store -> Forall well_formed store.
Proof.
  induction 1 as [|store now req R IH|store now req R IH].
  - exact seed_well_formed.
  - apply handler_preserves; [exact or_empty_object_valid | exact IH].
  - apply handler_preserves; [reflexivity | exact IH].
Qed.

Lemma reachable_well_formed_witness :
  Forall well_formed
    (snd (ExpenseJs.handler 1 GET
            (snd (ExpensesJs.handler 0 (POST lunch) expenses)))).
Proof.
  apply reachable_well_formed.
  apply reachable_expense, reachable_expenses, reachable_start.
Defined.

(** ** Numeric prefixes *)

(** C10: there is a POST payload whose amount is a string made of a
    numeric prefix and non-numeric characters, ['12abc'], that passes
    validation with no amount message, and the expense created from it
    has the amount [parseFloat] reads from the prefix alone, 12. *)
Theorem numeric_prefix_amount :
  exists payload e,
    get payload #"amount" = Normal (VString (#"12" ++ #"abc")) /\
    Str.span_digits (#"12" ++ #"abc") = (#"12", #"abc") /\
    validateExpense payload = Normal [] /\
    ExpenseJs.handler 0 (POST payload) expenses =
      (Normal (created e), expenses ++ [e]) /\
    Normal (amount e) = parseFloat (VString #"12") /\
    amount e = Num.of_N 12.
Proof.
  exists (VObject [(#"amount", VString #"12abc");
                   (#"description", VString #"Lunch");
                   (#"category", VString #"Food");
                   (#"date", VString #"2025-12-05")]).
  eexists. repeat split; try (vm_compute; reflexivity).
Qed.

(** ** Further properties: lemmas *)

Lemma str_eqb_eq (a b : jsstring) : Str.eqb a b = true <-> a = b.
Proof.
  revert b; induction a as [|x a IH]; intros [|y b]; simpl;
    try (split; [discriminate | intros H; discriminate H]);
    [split; reflexivity|].
  rewrite andb_true_iff, N.eqb_eq, IH. split.
  - intros [-> ->]; reflexivity.
  - intros H; injection H as -> ->; auto.
Qed.

Lemma str_eqb_neq (a b : jsstring) : a <> b -> Str.eqb a b = false.
Proof.
  intros H. destruct (Str.eqb a b) eqn:E; [|reflexivity].
  apply str_eqb_eq in E; contradiction.
Qed.

(** Every way the handler can end. *)
Lemma handler_outcomes (validated : value -> value) (now : N)
    (req : request) (store : list expense) :
  let result := handler_with validated now req store in
  (method req = #"OPTIONS" /\
   result = (Normal (Response 204 cors_headers None), store)) \/
  (method req = #"GET" /\
   exists sorted,
     Sort.sort by_date_descending store = Normal sorted /\
     result = (Normal (json_response 200 (ExpenseList sorted)), sorted)) \/
  (method req = #"GET" /\
   Sort.sort by_date_descending store = Throw /\ result = (Throw, store)) \/
  (method req = #"POST" /\
   exists payload e,
     body req = Normal payload /\
     validateExpense (validated payload) = Normal [] /\
     new_expense now payload = Normal e /\
     result = (Normal (created e), store ++ [e])) \/
  (method req = #"POST" /\
   exists payload m details,
     body req = Normal payload /\
     validateExpense (validated payload) = Normal (m :: details) /\
     result = (Normal (validation_failed (m :: details)), store)) \/
  (method req = #"POST" /\ result = (Normal internal_error, store)) \/
  (method req <> #"OPTIONS" /\ method req <> #"GET" /\
   method req <> #"POST" /\
   result = (Normal (method_not_allowed (method req)), store)).
Proof.
  cbv zeta. unfold handler_with.
  destruct (Str.eqb (method req) #"OPTIONS") eqn:EO.
  { left. apply str_eqb_eq in EO. auto. }
  destruct (Str.eqb (method req) #"GET") eqn:EG.
  { apply str_eqb_eq in EG. right.
    unfold and_then, sort_expenses, ret.
    destruct (Sort.sort by_date_descending store) as [sorted|].
    - left. split; [exact EG|]. exists sorted; auto.
    - right; left. auto. }
  destruct (Str.eqb (method req) #"POST") eqn:EP.
  { apply str_eqb_eq in EP. do 3 right. rewrite post_unfold.
    destruct (body req) as [payload|]; [|right; right; left; auto].
    destruct (validateExpense (validated payload)) as [[|m details]|] eqn:V.
    - destruct (new_expense now payload) as [e|] eqn:B.
      + left. split; [exact EP|]. exists payload, e. auto.
      + right; right; left; auto.
    - right; left. split; [exact EP|]. exists payload, m, details. auto.
    - right; right; left; auto. }
  do 6 right.
  repeat split; try reflexivity;
    intros H; apply str_eqb_eq in H; congruence.
Qed.

Lemma handlers_cases (P : (N -> request -> action response) -> Prop) :
  (forall validated, P (handler_with validated)) -> Forall P handlers.
Proof.
  intros H. unfold handlers.
  apply Forall_cons; [apply H|].
  apply Forall_cons; [apply H | apply Forall_nil].
Qed.

Lemma handlers_inv (handler : N -> request -> action response) :
  In handler handlers ->
  handler = handler_with or_empty_object \/
  handler = handler_with (fun newExpense => newExpense).
Proof.
  intros [<-|[<-|[]]]; [left | right]; reflexivity.
Qed.

Lemma handlers_both (P : (N -> request -> action response) -> Prop) :
  P ExpenseJs.handler -> P ExpensesJs.handler -> Forall P handlers.
Proof.
  intros H1 H2. unfold handlers.
  apply Forall_cons; [exact H1|].
  apply Forall_cons; [exact H2 | apply Forall_nil].
Qed.

Lemma strongly_sorted_app_r (A : Type) (R : A -> A -> Prop)
    (l1 l2 : list A) :
  StronglySorted R (l1 ++ l2) -> StronglySorted R l2.
Proof.
  induction l1 as [|a l1 IH]; intros S; [exact S|].
  apply StronglySorted_inv in S as [S _]. apply IH, S.
Qed.

Section MoreSortFacts.

Variable A : Type.
Variable comparefn : A -> A -> completion (option Z).

(** A comparison function that never throws on the elements at hand lets
    the sort return. *)
Lemma insert_returns (x : A) (p : list A) :
  (forall y, In y p -> comparefn y x <> Throw) ->
  exists r, Sort.insert comparefn x p = Normal r.
Proof.
  induction p as [|y p IH]; intros H; simpl; [eexists; reflexivity|].
  unfold Sort.sort_compare.
  destruct (comparefn y x) as [v|] eqn:E;
    [|exfalso; apply (H y); [left; reflexivity | exact E]].
  cbn [bind]. destruct (0 <? _)%Z; [|eexists; reflexivity].
  destruct IH as [r ->]; [intros z Hz; apply H; right; exact Hz|].
  eexists; reflexivity.
Qed.

Lemma insert_all_returns (l p : list A) :
  (forall x y, In x (l ++ p) -> In y (l ++ p) -> comparefn x y <> Throw) ->
  exists r, Sort.insert_all comparefn p l = Normal r.
Proof.
  revert p; induction l as [|x l IH]; intros p H; simpl;
    [eexists; reflexivity|].
  destruct (insert_returns x p) as [p' E].
  { intros y Hy. apply H; simpl; rewrite ?in_app_iff; auto. }
  rewrite E; cbn [bind]. apply IH. intros a b Ha Hb.
  pose proof (insert_permutation A comparefn x p p' E) as P.
  assert (M : forall z, In z (l ++ p') -> In z ((x :: l) ++ p)).
  { intros z Hz. apply in_app_iff in Hz as [Hz|Hz].
    - simpl; rewrite in_app_iff; auto.
    - apply Permutation_sym in P. apply (Permutation_in _ P) in Hz.
      simpl in *; rewrite in_app_iff; tauto. }
  apply H; apply M; assumption.
Qed.

Lemma sort_returns (l : list A) :
  (forall x y, In x l -> In y l -> comparefn x y <> Throw) ->
  exists r, Sort.sort comparefn l = Normal r.
Proof.
  intros H. destruct (insert_all_returns l []) as [r E].
  { rewrite app_nil_r; exact H. }
  unfold Sort.sort. rewrite E. eexists; reflexivity.
Qed.

Variable key : A -> Z.

(** A list already in descending key order is left as it is. *)
Lemma insert_all_sorted (l p : list A) :
  keyed comparefn key (rev p ++ l) -> descending key (rev p ++ l) ->
  Sort.insert_all comparefn p l = Normal (rev l ++ p).
Proof.
  revert p; induction l as [|x l IH]; intros p K S; [reflexivity|].
  cbn [Sort.insert_all].
  assert (E : Sort.insert comparefn x p = Normal (x :: p)).
  { destruct p as [|y p]; [reflexivity|].
    cbn [Sort.insert]. unfold Sort.sort_compare.
    rewrite (K y x)
      by (rewrite in_app_iff; simpl; rewrite ?in_app_iff; simpl; auto).
    cbn [bind].
    assert (Hk : (key x <= key y)%Z).
    { cbn [rev] in S. rewrite <- app_assoc in S. cbn [app] in S.
      unfold descending in S.
      apply strongly_sorted_app_r in S.
      apply StronglySorted_inv in S as [_ F].
      rewrite Forall_forall in F. apply F. left; reflexivity. }
    replace (0 <? key x - key y)%Z with false
      by (symmetry; apply Z.ltb_ge; lia).
    reflexivity. }
  rewrite E; cbn [bind].
  cbn [rev]. rewrite <- app_assoc. cbn [app].
  apply IH; cbn [rev]; rewrite <- app_assoc; assumption.
Qed.

Lemma sort_sorted (l : list A) :
  keyed comparefn key l -> descending key l ->
  Sort.sort comparefn l = Normal l.
Proof.
  intros K S. unfold Sort.sort.
  rewrite (insert_all_sorted l []) by assumption.
  cbn [bind]. rewrite app_nil_r, rev_involutive. reflexivity.
Qed.

(** The sort is stable: elements with the same key keep their order. *)
Lemma insert_stable (k : Z) (x : A) (p r : list A) :
  keyed comparefn key (x :: p) ->
  Sort.insert comparefn x p = Normal r ->
  with_key key k r = with_key key k (x :: p).
Proof.
  revert r; induction p as [|y p IH]; intros r K E.
  - injection E as <-. reflexivity.
  - cbn [Sort.insert] in E. unfold Sort.sort_compare in E.
    rewrite (K y x) in E by (simpl; auto). cbn [bind] in E.
    destruct (0 <? key x - key y)%Z eqn:C.
    + destruct (Sort.insert comparefn x p) as [r'|] eqn:E';
        [|discriminate E].
      cbn [bind] in E. injection E as <-.
      assert (K' : keyed comparefn key (x :: p)).
      { intros a b Ha Hb; apply K; simpl in *; tauto. }
      specialize (IH r' K' eq_refl).
      unfold with_key in *. cbn [filter] in *. rewrite IH.
      apply Z.ltb_lt in C.
      destruct (Z.eqb_spec (key y) k), (Z.eqb_spec (key x) k);
        try reflexivity; lia.
    + injection E as <-. reflexivity.
Qed.

Lemma insert_all_stable (k : Z) (l p r : list A) :
  keyed comparefn key (l ++ p) ->
  Sort.insert_all comparefn p l = Normal r ->
  with_key key k r = rev (with_key key k l) ++ with_key key k p.
Proof.
  revert p r; induction l as [|x l IH]; intros p r K E.
  - injection E as <-. reflexivity.
  - cbn [Sort.insert_all] in E.
    destruct (Sort.insert comparefn x p) as [p'|] eqn:E';
      [|discriminate E].
    cbn [bind] in E.
    assert (Kx : keyed comparefn key (x :: p)).
    { intros a b Ha Hb; apply K; simpl in *; rewrite in_app_iff; tauto. }
    pose proof (insert_stable k x p p' Kx E') as S.
    pose proof (insert_permutation A comparefn x p p' E') as P.
    assert (K' : keyed comparefn key (l ++ p')).
    { intros a b Ha Hb.
      assert (M : forall z, In z (l ++ p') -> In z ((x :: l) ++ p)).
      { intros z Hz. apply in_app_iff in Hz as [Hz|Hz].
        - simpl; rewrite in_app_iff; auto.
        - apply Permutation_sym in P. apply (Permutation_in _ P) in Hz.
          simpl in *; rewrite in_app_iff; tauto. }
      apply K; apply M; assumption. }
    rewrite (IH p' r K' E), S.
    unfold with_key. cbn [filter].
    destruct (key x =? k)%Z; cbn [rev]; rewrite <- ?app_assoc; reflexivity.
Qed.

Lemma sort_stable (k : Z) (l r : list A) :
  keyed comparefn key l ->
  Sort.sort comparefn l = Normal r ->
  with_key key k r = with_key key k l.
Proof.
  intros K E. unfold Sort.sort in E.
  destruct (Sort.insert_all comparefn [] l) as [p|] eqn:E';
    [|discriminate E].
  cbn [bind] in E. injection E as <-.
  assert (K' : keyed comparefn key (l ++ [])) by (rewrite app_nil_r; exact K).
  pose proof (insert_all_stable k l [] p K' E') as S.
  unfold with_key in *. cbn [filter] in S. rewrite app_nil_r in S.
  rewrite <- (rev_involutive (filter _ l)), <- S.
  clear. induction p as [|a p IH]; [reflexivity|].
  cbn [rev filter]. rewrite filter_app, IH. cbn [filter].
  destruct (key a =? k)%Z; cbn [rev]; rewrite ?app_nil_r; reflexivity.
Qed.

End MoreSortFacts.

(** ** Digits *)

Lemma of_uint_injective (u u' : Decimal.uint) :
  Str.of_uint u = Str.of_uint u' -> u = u'.
Proof.
  revert u'; induction u; intros u' H; destruct u'; simpl in H;
    try discriminate H; try reflexivity;
    injection H as H; f_equal; apply IHu, H.
Qed.

Lemma of_N_injective (n m : N) : Str.of_N n = Str.of_N m -> n = m.
Proof.
  intros H. apply DecimalN.Unsigned.to_uint_inj, of_uint_injective, H.
Qed.

Lemma of_uint_digits (u : Decimal.uint) :
  forallb Str.is_digit (Str.of_uint u) = true.
Proof. induction u; simpl; auto. Qed.

Lemma span_digits_all (s : jsstring) :
  forallb Str.is_digit s = true -> Str.span_digits s = (s, []).
Proof.
  induction s as [|c s IH]; simpl; [reflexivity|].
  intros H. apply andb_true_iff in H as [Hc Hs].
  rewrite Hc, (IH Hs). reflexivity.
Qed.

Lemma fold_digits (u : Decimal.uint) (acc : N) :
  fold_left (fun a c => (a * 10 + (c - 48))%N) (Str.of_uint u) acc =
  (acc * 10 ^ Unsigned.usize u + Unsigned.of_lu (Decimal.rev u))%N.
Proof.
  revert acc; induction u; intros acc;
    [simpl; rewrite N.mul_1_r, N.add_0_r; reflexivity|..];
    cbn [Str.of_uint fold_left Unsigned.usize]; rewrite IHu;
    unfold Decimal.rev at 2; cbn [Decimal.revapp];
    rewrite Unsigned.of_lu_revapp, N.pow_succ_r';
    cbn [Unsigned.of_lu]; rewrite ?N.mul_0_r, ?N.add_0_r;
    change (48 - 48)%N with 0%N; change (49 - 48)%N with 1%N;
    change (50 - 48)%N with 2%N; change (51 - 48)%N with 3%N;
    change (52 - 48)%N with 4%N; change (53 - 48)%N with 5%N;
    change (54 - 48)%N with 6%N; change (55 - 48)%N with 7%N;
    change (56 - 48)%N with 8%N; change (57 - 48)%N with 9%N; ring.
Qed.

Lemma digits_value_of_N (n : N) : Str.digits_value (Str.of_N n) = n.
Proof.
  unfold Str.digits_value, Str.of_N. rewrite fold_digits.
  rewrite N.mul_0_l, N.add_0_l, <- Unsigned.of_uint_alt.
  apply DecimalN.Unsigned.of_to.
Qed.

Lemma of_N_head (n : N) :
  exists c r, Str.of_N n = c :: r /\ Str.is_digit c = true.
Proof.
  pose proof (of_uint_digits (N.to_uint n)) as D. unfold Str.of_N.
  destruct (N.to_uint n) eqn:E;
    try (cbn [Str.of_uint forallb] in *;
         apply andb_true_iff in D as [D _]; eauto).
  exfalso. destruct n as [|p]; [discriminate E|].
  exact (Unsigned.to_uint_nonnil p E).
Qed.

(** Reading back the digits of a natural number. *)
Lemma parse_prefix_of_N (n : N) :
  Num.parse_prefix (Str.trim_start (Str.of_N n)) = Num.of_N n.
Proof.
  destruct (of_N_head n) as (c & r & E & D).
  pose proof (of_uint_digits (N.to_uint n)) as A. fold (Str.of_N n) in A.
  pose proof (digits_value_of_N n) as V.
  rewrite E in *.
  assert (C : In c [48; 49; 50; 51; 52; 53; 54; 55; 56; 57]%N).
  { unfold Str.is_digit in D. apply andb_true_iff in D as [D1 D2].
    apply N.leb_le in D1, D2. simpl. lia. }
  simpl in C.
  repeat (destruct C as [<-|C]; [| ]); try contradiction;
    (rewrite trim_start_fixed by reflexivity;
     unfold Num.parse_prefix; cbv beta iota;
     match goal with
     | |- context [Str.starts_with ?p ?l] =>
         change (Str.starts_with p l) with false
     end;
     cbv beta iota;
     rewrite (span_digits_all _ A);
     cbn [app List.length]; rewrite app_nil_r, V; reflexivity).
Qed.

(** ** Trimming *)

Lemma trim_end_empty (s : jsstring) :
  Str.trim_end s = [] <-> has_text s = false.
Proof.
  unfold has_text. induction s as [|c s IH]; simpl; [tauto|].
  destruct (Str.trim_end s) as [|d r].
  - destruct (Str.is_white_space c); simpl.
    + rewrite <- IH; tauto.
    + split; discriminate.
  - rewrite orb_false_iff, <- IH. split; [discriminate|].
    intros [_ H]; discriminate H.
Qed.

Lemma has_text_trim_start (s : jsstring) :
  has_text (Str.trim_start s) = has_text s.
Proof.
  unfold has_text. induction s as [|c s IH]; simpl; [reflexivity|].
  destruct (Str.is_white_space c) eqn:W; simpl; [exact IH|].
  rewrite W; reflexivity.
Qed.

Lemma trim_empty (s : jsstring) : Str.trim s = [] <-> has_text s = false.
Proof.
  unfold Str.trim. rewrite trim_end_empty. rewrite has_text_trim_start.
  tauto.
Qed.

Lemma trim_end_last (s r : jsstring) (c : N) :
  Str.trim_end s = r ++ [c] -> Str.is_white_space c = false.
Proof.
  revert r; induction s as [|a s IH]; intros r H; simpl in H.
  - destruct r; discriminate H.
  - destruct (Str.trim_end s) as [|d t].
    + destruct (Str.is_white_space a) eqn:W.
      * destruct r; discriminate H.
      * destruct r as [|b r]; [injection H as <-; exact W|].
        injection H as _ H. destruct r; discriminate H.
    + destruct r as [|b r]; [discriminate H|].
      injection H as _ H. apply (IH r). exact H.
Qed.

Lemma trim_tight (s : jsstring) : tight (Str.trim s).
Proof.
  unfold tight, Str.trim. split.
  - intros c r E. pose proof (trim_start_head s) as H.
    destruct (Str.trim_start s) as [|a t]; [discriminate E|].
    destruct (trim_end_head a t H) as [r' E'].
    rewrite E' in E. injection E as <- _. exact H.
  - intros c r E. exact (trim_end_last _ r c E).
Qed.

(** ** More on validateExpense *)

Lemma validateExpense_messages (data : value) (errs : list jsstring) :
  validateExpense data = Normal errs ->
  errs = map message_of (filter (fails data) all_fields) /\
  forall f, In (message_of f) errs <-> fails data f = true.
Proof.
  assert (M : forall f,
             In (message_of f)
               (map message_of (filter (fails data) all_fields))
             <-> fails data f = true).
  { intros f. rewrite in_map_iff. split.
    - intros (g & E & H). apply message_of_injective in E; subst g.
      apply filter_In in H; tauto.
    - intros H. exists f; split; [reflexivity|].
      apply filter_In; split; [destruct f; simpl; tauto | exact H]. }
  rewrite validateExpense_spec.
  destruct (nullish data); [discriminate|].
  destruct (amount_check (field_value data Amount)); [|discriminate].
  destruct (date_check (field_value data DateField)); [|discriminate].
  cbn [bind]. intros H. assert (E : errs = map message_of
                                  (filter (fails data) all_fields))
    by congruence.
  rewrite E. split; [reflexivity | exact M].
Qed.

Lemma unconvertible_truthy (v : value) :
  convertible v = false -> truthy v = true.
Proof. destruct v; try discriminate; reflexivity. Qed.

Lemma convertible_false (v : value) :
  convertible v = false <-> ToString v = Throw.
Proof.
  pose proof (ToString_convertible v) as H.
  destruct (convertible v), (ToString v) as [s|]; split; intros E;
    try reflexivity; try discriminate E.
  - exfalso. apply (proj1 H); reflexivity.
  - assert (F : false = true) by (apply H; discriminate). discriminate F.
Qed.

Lemma amount_check_throws (v : value) :
  amount_check v = Throw <-> convertible v = false.
Proof.
  rewrite convertible_false. unfold amount_check, parseFloat. split.
  - destruct (truthy v); cbn [negb]; [|discriminate].
    destruct (ToString v); [discriminate | reflexivity].
  - intros E. rewrite (unconvertible_truthy v) by (apply convertible_false, E).
    cbn [negb]. rewrite E. reflexivity.
Qed.

Lemma date_check_throws (v : value) :
  date_check v = Throw <-> convertible v = false.
Proof.
  rewrite convertible_false. unfold date_check, Regex.test. split.
  - destruct (truthy v); cbn [negb]; [|discriminate].
    destruct (ToString v); [discriminate | reflexivity].
  - intros E. rewrite (unconvertible_truthy v) by (apply convertible_false, E).
    cbn [negb]. rewrite E. reflexivity.
Qed.

Lemma validateExpense_throws (data : value) :
  validateExpense data = Throw <->
  nullish data = true \/
  convertible (field_value data Amount) = false \/
  convertible (field_value data DateField) = false.
Proof.
  rewrite validateExpense_spec, <- amount_check_throws, <- date_check_throws.
  destruct (nullish data); [tauto|].
  destruct (amount_check (field_value data Amount)); cbn [bind];
    [|tauto].
  destruct (date_check (field_value data DateField)); cbn [bind].
  - split; [discriminate | intros [H|[H|H]]; discriminate H].
  - tauto.
Qed.

(** ** Dates that do not throw *)

Lemma time_value_returns (v : value) :
  ToString v <> Throw -> Date.time_value v <> Throw.
Proof.
  intros H. destruct v; try discriminate;
    unfold Date.time_value; destruct (ToString _); try discriminate;
    contradiction.
Qed.

Lemma well_formed_comparable (l : list expense) :
  (forall e, In e l -> well_formed e) ->
  forall x y, In x l -> In y l -> by_date_descending x y <> Throw.
Proof.
  intros W x y Hx Hy. unfold by_date_descending.
  destruct (wf_date (W x Hx)) as (sx & Ex & _).
  destruct (wf_date (W y Hy)) as (sy & Ey & _).
  pose proof (time_value_returns (date x)) as Tx.
  pose proof (time_value_returns (date y)) as Ty.
  rewrite Ex in Tx. rewrite Ey in Ty.
  destruct (Date.time_value (date y));
    [|exfalso; apply Ty; [discriminate | reflexivity]].
  destruct (Date.time_value (date x));
    [|exfalso; apply Tx; [discriminate | reflexivity]].
  discriminate.
Qed.

(** ** States *)

Lemma reachable_records (store : list expense) :
  reachable store -> forall e, In e store -> well_formed e.
Proof.
  intros R. apply Forall_forall.
  induction R as [|store now req R IH|store now req R IH].
  - exact seed_well_formed.
  - apply handler_preserves; [exact or_empty_object_valid | exact IH].
  - apply handler_preserves; [reflexivity | exact IH].
Qed.

Lemma handler_keeps (handler : N -> request -> action response)
    (now : N) (req : request) (store : list expense) (e : expense) :
  In handler handlers -> In e store ->
  In e (snd (handler now req store)).
Proof.
  intros H I. apply handlers_inv in H as [-> | ->];
    (match goal with
     | |- In _ (snd (handler_with ?v _ _ _)) =>
         destruct (handler_store v now req store)
           as [P | (payload & e' & _ & _ & _ & ->)]
     end;
     [exact (Permutation_in _ P I) | apply in_app_iff; left; exact I]).
Qed.

Lemma evolves_keeps (store store' : list expense) (e : expense) :
  evolves store store' -> In e store -> In e store'.
Proof.
  induction 1 as [|store store' handler now req Ev IH H]; intros I;
    [exact I|].
  apply handler_keeps; [exact H | apply IH, I].
Qed.

Lemma evolves_reachable (store : list expense) :
  evolves expenses store -> reachable store.
Proof.
  remember expenses as start eqn:E.
  induction 1 as [|store store' handler now req Ev IH H];
    [subst; apply reachable_start|].
  specialize (IH E).
  apply handlers_inv in H as [-> | ->].
  - exact (reachable_expense now req IH).
  - exact (reachable_expenses now req IH).
Qed.

(** ** Further properties of the handlers *)

(** X1: a request whose method is OPTIONS is answered 204 with the CORS
    headers and no body, and a request whose method is none of OPTIONS,
    GET and POST (the comparison is exact) is answered 405 with the error
    [Method <M> Not Allowed]; neither looks at the body nor touches the
    store. Both files behave so. *)
Theorem other_methods (now : N) (req : request) (store : list expense) :
  Forall
    (fun handler =>
       (method req = #"OPTIONS" ->
        handler now req store =
          (Normal (Response 204 cors_headers None), store)) /\
       (method req <> #"OPTIONS" -> method req <> #"GET" ->
        method req <> #"POST" ->
        handler now req store =
          (Normal (method_not_allowed (method req)), store)))
    handlers.
Proof.
  apply handlers_cases. intros validated. split.
  - intros E. unfold handler_with. rewrite E. reflexivity.
  - intros HO HG HP. unfold handler_with.
    rewrite (str_eqb_neq _ _ HO), (str_eqb_neq _ _ HG),
      (str_eqb_neq _ _ HP).
    reflexivity.
Qed.

Lemma other_methods_witness :
  ExpenseJs.handler 0 delete_request expenses =
    (Normal (method_not_allowed #"DELETE"), expenses) /\
  ExpenseJs.handler 0 (Request #"OPTIONS" Throw) expenses =
    (Normal (Response 204 cors_headers None), expenses).
Proof.
  split.
  - apply (Forall_inv (other_methods 0 delete_request expenses));
      vm_compute; discriminate.
  - apply (Forall_inv
             (other_methods 0 (Request #"OPTIONS" Throw) expenses)).
    reflexivity.
Defined.

(** X2: every response either handler writes starts with the three CORS
    headers; only the 204 answer has no body, and every other answer
    carries [Content-Type: application/json] as its one further header. *)
Theorem cors_on_every_response (now : N) (req : request)
    (store : list expense) :
  Forall
    (fun handler =>
       forall res, fst (handler now req store) = Normal res ->
         firstn 3 (headers res) = cors_headers /\
         (content res = None <-> status res = 204%N) /\
         (status res <> 204%N ->
          headers res =
            cors_headers ++ [(#"Content-Type", #"application/json")]))
    handlers.
Proof.
  apply handlers_cases. intros validated res H.
  destruct (handler_outcomes validated now req store)
    as [(_ & E) | [(_ & sorted & _ & E) | [(_ & _ & E)
       | [(_ & payload & e & _ & _ & _ & E)
       | [(_ & payload & m & details & _ & _ & E)
       | [(_ & E) | (_ & _ & _ & E)]]]]]];
    rewrite E in H; cbn [fst] in H; try discriminate H;
    injection H as <-;
    (split; [reflexivity|]);
    (split; [split; intros F; try reflexivity; discriminate F|]);
    intros F; try reflexivity; contradiction F; reflexivity.
Qed.

Lemma cors_on_every_response_witness :
  exists res,
    fst (ExpenseJs.handler 0 GET expenses) = Normal res /\
    firstn 3 (headers res) = cors_headers.
Proof.
  eexists. split; [vm_compute; reflexivity|].
  apply (Forall_inv (cors_on_every_response 0 GET expenses)).
  vm_compute; reflexivity.
Defined.

(** X3: the store is append-only. Whatever the request, every record
    stored before it is still stored after it, and the number of records
    either stays the same or grows by one; it grows exactly when the
    answer is 201. Both files behave so. *)
Theorem store_append_only (now : N) (req : request)
    (store : list expense) :
  Forall
    (fun handler =>
       let result := handler now req store in
       (forall e, In e store -> In e (snd result)) /\
       (List.length (snd result) = List.length store \/
        List.length (snd result) = S (List.length store)) /\
       (List.length (snd result) = S (List.length store) <->
        exists res, fst result = Normal res /\ status res = 201%N))
    handlers.
Proof.
  apply handlers_cases. intros validated. cbv zeta.
  destruct (handler_outcomes validated now req store)
    as [(_ & E) | [(_ & sorted & S & E) | [(_ & _ & E)
       | [(_ & payload & e & _ & _ & _ & E)
       | [(_ & payload & m & details & _ & _ & E)
       | [(_ & E) | (_ & _ & _ & E)]]]]]];
    rewrite E; cbn [fst snd].
  2:{ apply sort_permutation in S. split; [|split].
      - intros e I. exact (Permutation_in _ S I).
      - left. symmetry. apply Permutation_length, S.
      - rewrite <- (Permutation_length S). split; [lia|].
        intros (res & H & F). injection H as <-. discriminate F. }
  3:{ split; [|split].
      - intros x I. apply in_app_iff; left; exact I.
      - right. rewrite length_app. simpl. lia.
      - split; [|rewrite length_app; simpl; lia].
        intros _. exists (created e). split; reflexivity. }
  all: split; [intros e I; exact I|];
    (split; [left; reflexivity|]);
    (split; [lia|]);
    intros (res & H & F); try discriminate H;
    injection H as <-; discriminate F.
Qed.

Lemma store_append_only_witness :
  let store' := snd (ExpensesJs.handler 7 (POST lunch) expenses) in
  Forall (fun e => In e store') expenses /\
  List.length store' = 4%nat.
Proof.
  cbv zeta.
  pose proof (Forall_inv_tail
                (store_append_only 7 (POST lunch) expenses)) as H.
  apply Forall_inv in H. cbv zeta in H. destruct H as (K & _ & G).
  split.
  - apply Forall_forall. exact K.
  - apply G. eexists. split; vm_compute; reflexivity.
Defined.

(** X4: records persist. A record that is in the store stays in it through
    any later sequence of requests to either handler, and every GET that
    is answered afterwards lists it, among as many records as the store
    holds. In particular GET always lists the three seed records and
    every record a POST has created. *)
Theorem records_persist (store store' : list expense) (e : expense)
    (now : N) (b : completion value) :
  evolves store store' -> In e store ->
  In e store' /\
  Forall
    (fun handler =>
       forall res,
         fst (handler now (Request #"GET" b) store') = Normal res ->
         exists data,
           res = json_response 200 (ExpenseList data) /\
           In e data /\ List.length data = List.length store')
    handlers.
Proof.
  intros Ev I. pose proof (evolves_keeps store store' e Ev I) as I'.
  split; [exact I'|].
  apply handlers_cases. intros validated res H.
  rewrite handler_GET in H.
  destruct (Sort.sort by_date_descending store') as [sorted|] eqn:S;
    cbn [fst] in H; [|discriminate H].
  injection H as <-. apply sort_permutation in S.
  exists sorted. split; [reflexivity|]. split.
  - exact (Permutation_in _ S I').
  - symmetry. apply Permutation_length, S.
Qed.

Lemma records_persist_witness :
  let store' := snd (ExpenseJs.handler 7 (POST lunch) expenses) in
  Forall (fun e => In e store') expenses.
Proof.
  cbv zeta. apply Forall_forall. intros e I.
  refine (proj1 (records_persist expenses _ e 0 Throw _ I)).
  apply (evolves_step 7 (POST lunch) (evolves_refl expenses)).
  left; reflexivity.
Defined.

(** X5: in every state the store can reach from the seed records, every
    request to either handler is answered (the handler never rejects),
    with one of the statuses 200, 201, 204, 400, 405 and 500. *)
Theorem reachable_always_answers (store : list expense) (now : N)
    (req : request) :
  reachable store ->
  Forall
    (fun handler =>
       exists res,
         fst (handler now req store) = Normal res /\
         In (status res) statuses)
    handlers.
Proof.
  intros R. pose proof (reachable_records store R) as W.
  apply handlers_cases. intros validated.
  destruct (handler_outcomes validated now req store)
    as [(_ & E) | [(_ & sorted & _ & E) | [(_ & S & E)
       | [(_ & payload & e & _ & _ & _ & E)
       | [(_ & payload & m & details & _ & _ & E)
       | [(_ & E) | (_ & _ & _ & E)]]]]]];
    try (rewrite E; eexists; split; [reflexivity|];
         unfold statuses; simpl; tauto).
  exfalso.
  destruct (sort_returns expense by_date_descending store
              (well_formed_comparable store W)) as [r Er].
  congruence.
Qed.

Lemma reachable_always_answers_witness :
  exists res,
    fst (ExpenseJs.handler 0 GET expenses) = Normal res /\
    In (status res) statuses.
Proof.
  apply (Forall_inv (reachable_always_answers expenses 0 GET
                       reachable_start)).
Defined.

(** X6: when every stored date is one [Date] can read, a second GET is
    answered exactly as the first and leaves the store as the first left
    it. *)
Theorem get_twice (store : list expense) (now1 now2 : N)
    (b1 b2 : completion value) :
  Forall readable_date store ->
  Forall
    (fun handler =>
       let first := handler now1 (Request #"GET" b1) store in
       handler now2 (Request #"GET" b2) (snd first) = first)
    handlers.
Proof.
  intros R. apply handlers_cases. intros validated. cbv zeta.
  destruct (sort_descending expense by_date_descending time_of store
              (by_date_keyed store R)) as (data & E & S).
  rewrite (handler_GET validated now1 b1 store), E. cbn [snd].
  rewrite handler_GET.
  assert (R' : Forall readable_date data).
  { apply sort_permutation in E.
    eapply Permutation_Forall; eassumption. }
  rewrite (sort_sorted expense by_date_descending time_of data
             (by_date_keyed data R') S).
  reflexivity.
Qed.

Lemma get_twice_witness :
  let first := ExpenseJs.handler 0 GET expenses in
  ExpenseJs.handler 1 GET (snd first) = first.
Proof.
  apply (Forall_inv (get_twice expenses 0 1 (Normal VUndefined)
                       (Normal VUndefined)
                       ltac:(repeat constructor; eexists;
                             vm_compute; reflexivity))).
Defined.

(** X7: the order GET returns is stable. When every stored date is one
    [Date] can read, the records that share a date come back in the order
    they are stored in. *)
Theorem get_keeps_ties_in_order (store : list expense) (now : N)
    (b : completion value) :
  Forall readable_date store ->
  Forall
    (fun handler =>
       exists data,
         handler now (Request #"GET" b) store =
           (Normal (json_response 200 (ExpenseList data)), data) /\
         forall t, dated t data = dated t store)
    handlers.
Proof.
  intros R. apply handlers_cases. intros validated.
  destruct (sort_descending expense by_date_descending time_of store
              (by_date_keyed store R)) as (data & E & _).
  exists data. rewrite handler_GET, E. split; [reflexivity|].
  intros t. unfold dated.
  exact (sort_stable expense by_date_descending time_of t store data
           (by_date_keyed store R) E).
Qed.

Lemma get_keeps_ties_in_order_witness :
  exists data,
    ExpenseJs.handler 0 GET tied =
      (Normal (json_response 200 (ExpenseList data)), data) /\
    map id (dated 1764547200000 data) = [#"e10"; #"e12"].
Proof.
  destruct (Forall_inv
              (get_keeps_ties_in_order tied 0 (Normal VUndefined)
                 ltac:(repeat constructor; eexists;
                       vm_compute; reflexivity)))
    as (data & E & T).
  exists data. split; [exact E|]. rewrite T. vm_compute. reflexivity.
Defined.

(** X8: when validation runs through a payload, the description message
    is returned exactly when the description is not a string or is a
    string with no character other than white space (the empty string
    included); the category is checked the same way. A number, a boolean,
    an array or an object is rejected even when truthy. *)
Theorem text_fields_need_text (data : value) (errs : list jsstring) :
  validateExpense data = Normal errs ->
  (In description_message errs <->
   forall s, field_value data Description = VString s ->
             has_text s = false) /\
  (In category_message errs <->
   forall s, field_value data Category = VString s -> has_text s = false).
Proof.
  intros V. destruct (validateExpense_messages data errs V) as [_ M].
  assert (T : forall v,
             text_check v = true <->
             forall s, v = VString s -> has_text s = false).
  { intros v. split.
    - intros H s ->. apply trim_empty.
      destruct (Str.trim s) eqn:E; [reflexivity|].
      assert (F : text_check (VString s) = false).
      { apply text_check_passes. exists s. split; [reflexivity|].
        rewrite E; discriminate. }
      congruence.
    - intros H. destruct (text_check v) eqn:E; [reflexivity|].
      apply text_check_passes in E as (s & -> & N0). exfalso. apply N0.
      apply trim_empty, H. reflexivity. }
  split.
  - rewrite (M Description). unfold fails. cbn [check_of]. apply T.
  - rewrite (M Category). unfold fails. cbn [check_of]. apply T.
Qed.

Lemma text_fields_need_text_witness :
  In description_message [amount_message; description_message;
                          date_message] /\
  has_text #"" = false.
Proof.
  destruct (text_fields_need_text three_failures
              [amount_message; description_message; date_message]
              ltac:(vm_compute; reflexivity)) as [[D _] _].
  split; [simpl; tauto|]. apply D; [simpl; tauto | reflexivity].
Defined.

Section PostStatus.

Variable validated : value -> value.
Hypothesis validated_valid :
  forall payload, validateExpense (validated payload) = Normal [] ->
                  validated payload = payload.

Lemma post_status (now : N) (payload : value) (store : list expense) :
  exists res store',
    handler_with validated now (POST payload) store = (Normal res, store') /\
    (status res = 201%N <->
     validateExpense (validated payload) = Normal []) /\
    (status res = 500%N <-> validateExpense (validated payload) = Throw) /\
    (status res = 400%N <->
     exists m details,
       validateExpense (validated payload) = Normal (m :: details)).
Proof.
  unfold POST. rewrite handler_POST, post_unfold. cbn [body].
  destruct (validateExpense (validated payload)) as [[|m details]|] eqn:V.
  - pose proof V as V'. rewrite (validated_valid payload V) in V'.
    destruct (valid_payload now payload V')
      as (a & x & sd & sc & d & _ & _ & _ & _ & _ & _ & _ & _ & _ & B).
    rewrite B. do 2 eexists. split; [reflexivity|]. cbn.
    repeat split; try discriminate; try reflexivity.
    intros (m & details & H); discriminate H.
  - do 2 eexists. split; [reflexivity|]. cbn.
    repeat split; try discriminate; try reflexivity.
    intros _. eauto.
  - do 2 eexists. split; [reflexivity|]. cbn.
    repeat split; try discriminate; try reflexivity.
    intros (m & details & H); discriminate H.
Qed.

End PostStatus.

Lemma fails_or_empty_object (payload : value) (f : field) :
  fails (or_empty_object payload) f = fails payload f.
Proof. unfold fails. rewrite field_value_or_empty_object. reflexivity. Qed.

Lemma nullish_or_empty_object (payload : value) :
  nullish (or_empty_object payload) = false.
Proof.
  unfold or_empty_object.
  destruct payload as [| |[|]|x|[|c s]|items|props]; try reflexivity.
  cbn [truthy]. destruct (negb _); reflexivity.
Qed.

Lemma validateExpense_fails (data : value) (m : jsstring)
    (details : list jsstring) :
  validateExpense data = Normal (m :: details) ->
  exists f, fails data f = true.
Proof.
  intros V. destruct (validateExpense_messages data _ V) as [E _].
  destruct (filter (fails data) all_fields) as [|f l] eqn:F;
    [discriminate E|].
  exists f. assert (I : In f (filter (fails data) all_fields))
    by (rewrite F; left; reflexivity).
  apply filter_In in I. tauto.
Qed.

Lemma validateExpense_some_failure (data : value) (f : field) :
  validateExpense data <> Throw -> fails data f = true ->
  exists m details, validateExpense data = Normal (m :: details).
Proof.
  intros T F. destruct (validateExpense data) as [errs|] eqn:V;
    [|contradiction].
  destruct (validateExpense_messages data errs V) as [_ M].
  apply M in F. destruct errs as [|m details]; [destruct F|]. eauto.
Qed.

(** X9: what decides the answer to a POST of expense.js. It is 201 exactly
    when the payload passes validation; 500 exactly when the amount or the
    date cannot be converted to a string; and 400 exactly when both can
    and one of the four fields fails its check. In expenses.js an
    [undefined] or [null] body is a further cause of 500, and only that. *)
Theorem post_status_decided (now : N) (payload : value)
    (store : list expense) :
  let unconvertible :=
    convertible (field_value payload Amount) = false \/
    convertible (field_value payload DateField) = false in
  (exists res store',
     ExpenseJs.handler now (POST payload) store = (Normal res, store') /\
     (status res = 201%N <-> validateExpense payload = Normal []) /\
     (status res = 500%N <-> unconvertible) /\
     (status res = 400%N <->
      ~ unconvertible /\ exists f, fails payload f = true)) /\
  (exists res store',
     ExpensesJs.handler now (POST payload) store = (Normal res, store') /\
     (status res = 201%N <-> validateExpense payload = Normal []) /\
     (status res = 500%N <-> nullish payload = true \/ unconvertible) /\
     (status res = 400%N <->
      nullish payload = false /\ ~ unconvertible /\
      exists f, fails payload f = true)).
Proof.
  cbv zeta. split.
  - destruct (post_status or_empty_object or_empty_object_valid
                now payload store)
      as (res & store' & E & H201 & H500 & H400).
    exists res, store'. split; [exact E|].
    rewrite validateExpense_throws, nullish_or_empty_object,
      !field_value_or_empty_object in H500.
    split; [|split].
    + rewrite H201. split; intros V.
      * rewrite <- (or_empty_object_valid payload V). exact V.
      * rewrite (valid_or_empty_object payload V). exact V.
    + rewrite H500. split; [intros [H|H]; [discriminate H | exact H]|auto].
    + rewrite H400. split.
      * intros (m & details & V). split.
        -- intros U. assert (T : validateExpense (or_empty_object payload)
                                  = Throw).
           { apply validateExpense_throws. right.
             rewrite !field_value_or_empty_object. exact U. }
           congruence.
        -- destruct (validateExpense_fails _ _ _ V) as [f F].
           exists f. rewrite <- fails_or_empty_object. exact F.
      * intros (U & f & F).
        apply (validateExpense_some_failure _ f).
        -- intros T. apply U. apply validateExpense_throws in T.
           rewrite nullish_or_empty_object,
             !field_value_or_empty_object in T.
           destruct T as [T|T]; [discriminate T | exact T].
        -- rewrite fails_or_empty_object. exact F.
  - destruct (post_status (fun newExpense => newExpense)
                (fun p _ => eq_refl) now payload store)
      as (res & store' & E & H201 & H500 & H400).
    exists res, store'. split; [exact E|].
    rewrite validateExpense_throws in H500.
    split; [exact H201|]. split; [exact H500|].
    rewrite H400. split.
    + intros (m & details & V). split; [|split].
      * destruct (nullish payload) eqn:N0; [|reflexivity].
        assert (T : validateExpense payload = Throw)
          by (apply validateExpense_throws; left; exact N0).
        congruence.
      * intros U. assert (T : validateExpense payload = Throw)
          by (apply validateExpense_throws; right; exact U).
        congruence.
      * exact (validateExpense_fails _ _ _ V).
    + intros (N0 & U & f & F).
      apply (validateExpense_some_failure _ f); [|exact F].
      intros T. apply validateExpense_throws in T.
      destruct T as [T|T]; [congruence | exact (U T)].
Qed.

(** X10: a POST body that is not an object (a string, a number, a
    boolean, an array) has none of the four fields: both files answer 400
    with the four messages, in the order amount, description, category,
    date, and leave the store alone. An empty object fares the same. *)
Theorem non_object_payload (now : N) (payload : value)
    (store : list expense) :
  nullish payload = false ->
  (forall props, payload <> VObject props) ->
  Forall
    (fun handler =>
       handler now (POST payload) store =
         (Normal (validation_failed four_messages), store) /\
       handler now (POST (VObject [])) store =
         (Normal (validation_failed four_messages), store))
    handlers.
Proof.
  intros N0 O.
  apply handlers_both; (split; [|reflexivity]);
    unfold ExpenseJs.handler, ExpensesJs.handler, POST;
    rewrite handler_POST, post_unfold; cbn [body];
    rewrite ?validated_or_empty_object by exact N0;
    (destruct payload as [| |b|x|s|items|props];
     try discriminate N0; try (exfalso; apply (O props); reflexivity);
     reflexivity).
Qed.

Lemma non_object_payload_witness :
  ExpensesJs.handler 0 (POST (VArray [lunch])) expenses =
    (Normal (validation_failed four_messages), expenses).
Proof.
  refine (proj1 (Forall_inv (Forall_inv_tail
            (non_object_payload 0 (VArray [lunch]) expenses _ _)))).
  - reflexivity.
  - intros props; discriminate.
Defined.

Lemma own_property_skip (pre post : list (jsstring * value))
    (k key : jsstring) (v : value) :
  Str.eqb k key = false ->
  own_property (pre ++ (k, v) :: post) key = own_property (pre ++ post) key.
Proof.
  intros E. induction pre as [|[k' v'] pre IH]; simpl.
  - rewrite E. reflexivity.
  - rewrite IH. reflexivity.
Qed.

Lemma get_skip (pre post : list (jsstring * value)) (k : jsstring)
    (v : value) (f : field) :
  read_key k = false ->
  get (VObject (pre ++ (k, v) :: post)) (key_of f) =
  get (VObject (pre ++ post)) (key_of f).
Proof.
  intros R. unfold get. rewrite own_property_skip; [reflexivity|].
  unfold read_key in R. cbn [all_fields map existsb] in R.
  repeat (apply orb_false_iff in R as [? R]).
  destruct f; assumption.
Qed.

(** X11: a POST looks at the four keys [amount], [description],
    [category] and [date] only. A property under any other key, wherever
    it stands in the payload, changes neither the answer nor the store;
    it is not stored. Both files behave so. *)
Theorem other_properties_ignored (now : N) (store : list expense)
    (pre post : list (jsstring * value)) (k : jsstring) (v : value) :
  read_key k = false ->
  Forall
    (fun handler =>
       handler now (POST (VObject (pre ++ (k, v) :: post))) store =
       handler now (POST (VObject (pre ++ post))) store)
    handlers.
Proof.
  intros R.
  assert (G : forall f,
             get (VObject (pre ++ (k, v) :: post)) (key_of f) =
             get (VObject (pre ++ post)) (key_of f))
    by (intros f; apply get_skip, R).
  assert (V : validateExpense (VObject (pre ++ (k, v) :: post)) =
              validateExpense (VObject (pre ++ post))).
  { unfold validateExpense.
    change #"amount" with (key_of Amount).
    change #"description" with (key_of Description).
    change #"category" with (key_of Category).
    change #"date" with (key_of DateField).
    rewrite !G. reflexivity. }
  assert (B : new_expense now (VObject (pre ++ (k, v) :: post)) =
              new_expense now (VObject (pre ++ post))).
  { unfold new_expense.
    change #"amount" with (key_of Amount).
    change #"description" with (key_of Description).
    change #"category" with (key_of Category).
    change #"date" with (key_of DateField).
    rewrite !G. reflexivity. }
  apply handlers_both;
    unfold ExpenseJs.handler, ExpensesJs.handler, POST;
    rewrite !handler_POST, !post_unfold; cbn [body];
    unfold or_empty_object; cbn [truthy]; rewrite V, B; reflexivity.
Qed.

Lemma other_properties_ignored_witness :
  ExpenseJs.handler 7 (POST (annotated [(#"amount", VString #"abc")]))
    expenses =
  ExpenseJs.handler 7 (POST (VObject [(#"amount", VString #"abc")]))
    expenses.
Proof.
  apply (Forall_inv
           (other_properties_ignored 7 expenses [] _ #"note"
              (VString #"x") ltac:(reflexivity))).
Defined.

(** What a created record was built from. *)
Lemma created_inv (validated : value -> value) (now : N) (req : request)
    (store store' : list expense) (e : expense) :
  handler_with validated now req store = (Normal (created e), store') ->
  exists payload,
    body req = Normal payload /\
    validateExpense (validated payload) = Normal [] /\
    new_expense now payload = Normal e /\
    store' = store ++ [e].
Proof.
  intros H.
  destruct (handler_outcomes validated now req store)
    as [(_ & E) | [(_ & sorted & _ & E) | [(_ & _ & E)
       | [(_ & payload & e' & Hb & V & B & E)
       | [(_ & payload & m & details & _ & _ & E)
       | [(_ & E) | (_ & _ & _ & E)]]]]]];
    rewrite E in H; try discriminate H.
  injection H as He Hs. subst e'. exists payload. auto.
Qed.

Lemma handlers_created (handler : N -> request -> action response)
    (now : N) (req : request) (store store' : list expense)
    (e : expense) :
  In handler handlers ->
  handler now req store = (Normal (created e), store') ->
  exists payload,
    body req = Normal payload /\
    validateExpense payload = Normal [] /\
    new_expense now payload = Normal e /\
    store' = store ++ [e].
Proof.
  intros I H. apply handlers_inv in I as [-> | ->];
    apply created_inv in H as (payload & Hb & V & B & Hs);
    exists payload; repeat split; try assumption.
  rewrite <- (or_empty_object_valid payload V). exact V.
Qed.

Lemma new_expense_id (now : N) (payload : value) (e : expense) :
  new_expense now payload = Normal e ->
  id e = #"e" ++ Num.to_string (Num.of_N now).
Proof.
  unfold new_expense.
  destruct (v <- get payload #"amount" ;; parseFloat v); [|discriminate].
  destruct (v <- get payload #"description" ;; trim_method v);
    [|discriminate].
  destruct (v <- get payload #"category" ;; trim_method v);
    [|discriminate].
  destruct (get payload #"date"); [|discriminate].
  cbn [bind]. intros H; injection H as <-. reflexivity.
Qed.

Lemma new_expense_amount (now : N) (payload : value) (e : expense) :
  nullish payload = false ->
  new_expense now payload = Normal e ->
  parseFloat (field_value payload Amount) = Normal (amount e).
Proof.
  intros N0. unfold new_expense.
  change #"amount" with (key_of Amount).
  rewrite get_field, N0. cbn [bind].
  destruct (parseFloat (field_value payload Amount)) as [x|];
    [|discriminate].
  destruct (v <- get payload #"description" ;; trim_method v);
    [|discriminate].
  destruct (v <- get payload #"category" ;; trim_method v);
    [|discriminate].
  destruct (get payload #"date"); [|discriminate].
  cbn [bind]. intros H; injection H as <-. reflexivity.
Qed.

(** X12: the id of a created record depends on the clock alone. Two
    records created by either handler have the same id exactly when they
    were created in the same millisecond; nothing compares a new id with
    the ids already stored. (Timestamps of at most 21 digits, which are
    printed without an exponent.) *)
Theorem id_by_timestamp (h1 h2 : N -> request -> action response)
    (now1 now2 : N) (req1 req2 : request)
    (store1 store2 store1' store2' : list expense) (e1 e2 : expense) :
  In h1 handlers -> In h2 handlers ->
  (List.length (Str.of_N now1) <= 21)%nat ->
  (List.length (Str.of_N now2) <= 21)%nat ->
  h1 now1 req1 store1 = (Normal (created e1), store1') ->
  h2 now2 req2 store2 = (Normal (created e2), store2') ->
  (id e1 = id e2 <-> now1 = now2).
Proof.
  intros I1 I2 L1 L2 H1 H2.
  apply (handlers_created h1) in H1 as (p1 & _ & _ & B1 & _); [|exact I1].
  apply (handlers_created h2) in H2 as (p2 & _ & _ & B2 & _); [|exact I2].
  rewrite (new_expense_id now1 p1 e1 B1), (new_expense_id now2 p2 e2 B2).
  rewrite (timestamp_to_string now1 L1), (timestamp_to_string now2 L2).
  split.
  - intros H. apply app_inv_head in H. apply of_N_injective, H.
  - intros ->. reflexivity.
Qed.

Lemma id_by_timestamp_witness :
  let e1 :=
    Expense #"e7" (Num.of_N 50) #"Lunch" #"Food" (VString #"2025-12-05") in
  let e2 :=
    Expense #"e7" (Num.decimal true 125 (-1)) #"Refund" #"Misc"
      (VString #"2025-12-05") in
  id e1 = id e2 <-> 7%N = 7%N.
Proof.
  intros e1 e2.
  apply (id_by_timestamp ExpenseJs.handler ExpensesJs.handler 7 7
           (POST lunch) (POST refund) expenses expenses
           (expenses ++ [e1]) (expenses ++ [e2]) e1 e2).
  - left; reflexivity.
  - right; left; reflexivity.
  - vm_compute; lia.
  - vm_compute; lia.
  - vm_compute; reflexivity.
  - vm_compute; reflexivity.
Defined.

(** X13: an amount sent as a whole number of at most 15 digits (every
    such number is a binary64 value, so nothing is rounded), or as the
    string of its decimal digits, is stored as that number: for a payload
    whose amount is the number [n] or the string of the digits of [n],
    the record a POST creates has amount [n]. *)
Theorem whole_amount_kept (handler : N -> request -> action response)
    (now n : N) (payload : value) (store store' : list expense)
    (e : expense) :
  In handler handlers ->
  (List.length (Str.of_N n) <= 15)%nat ->
  field_value payload Amount = VNumber (Num.of_N n) \/
  field_value payload Amount = VString (Str.of_N n) ->
  handler now (POST payload) store = (Normal (created e), store') ->
  amount e = Num.of_N n.
Proof.
  intros I L A H.
  apply (handlers_created handler) in H as (p & Hb & V & B & _);
    [|exact I].
  injection Hb as <-.
  pose proof (proj1 (validateExpense_passes payload) V) as (N0 & _).
  pose proof (new_expense_amount now payload e N0 B) as P.
  assert (L21 : (List.length (Str.of_N n) <= 21)%nat) by lia.
  assert (Q : parseFloat (field_value payload Amount) =
              Normal (Num.of_N n)).
  { unfold parseFloat. destruct A as [-> | ->]; cbn [ToString bind].
    - rewrite (timestamp_to_string n L21), parse_prefix_of_N. reflexivity.
    - rewrite parse_prefix_of_N. reflexivity. }
  congruence.
Qed.

Lemma whole_amount_kept_witness :
  let e :=
    Expense #"e7" (Num.of_N 50) #"Lunch" #"Food" (VString #"2025-12-05") in
  amount e = Num.of_N 50.
Proof.
  intros e.
  apply (whole_amount_kept ExpenseJs.handler 7 50 (whole 50) expenses
           (expenses ++ [e]) e);
    [simpl; tauto | vm_compute; lia | left; reflexivity
    | vm_compute; reflexivity].
Defined.

(** X14: in every state the store can reach from the seed records, no
    stored description or category starts or ends with a white-space
    character. *)
Theorem reachable_text_tight (store : list expense) :
  reachable store ->
  Forall (fun e => tight (description e) /\ tight (category e)) store.
Proof.
  intros R. apply Forall_forall. intros e I.
  pose proof (reachable_records store R e I) as W.
  destruct (wf_description W) as [_ D], (wf_category W) as [_ C].
  rewrite <- D, <- C. split; apply trim_tight.
Qed.

Lemma reachable_text_tight_witness :
  Forall (fun e => tight (description e) /\ tight (category e))
    (snd (ExpenseJs.handler 7 (POST lunch) expenses)).
Proof.
  apply reachable_text_tight.
  apply reachable_expense, reachable_start.
Defined.

(** X15: the two files answer alike, and leave the same store, on every
    request but one kind: they differ exactly on a POST whose body is
    [undefined] or [null]. *)
Theorem files_differ_only_without_body (now : N) (req : request)
    (store : list expense) :
  ExpenseJs.handler now req store <> ExpensesJs.handler now req store <->
  method req = #"POST" /\
  (body req = Normal VUndefined \/ body req = Normal VNull).
Proof.
  split.
  - intros D.
    assert (B : body req = Normal VUndefined \/ body req = Normal VNull).
    { destruct (body req) as [[| |b|x|s|items|props]|] eqn:E; auto;
        exfalso; apply D; apply handlers_agree; rewrite E; discriminate. }
    split; [|exact B].
    destruct (handler_outcomes or_empty_object now req store)
      as [(M & E) | [(M & sorted & S & E) | [(M & S & E)
         | [(M & _) | [(M & _) | [(M & _) | (M1 & M2 & M3 & E)]]]]]];
      try exact M; exfalso; apply D;
      unfold ExpenseJs.handler, ExpensesJs.handler, handler_with in *.
    + rewrite M. reflexivity.
    + rewrite M. reflexivity.
    + rewrite M. reflexivity.
    + rewrite (str_eqb_neq _ _ M1), (str_eqb_neq _ _ M2),
        (str_eqb_neq _ _ M3). reflexivity.
  - intros (M & B) E.
    unfold ExpenseJs.handler, ExpensesJs.handler, handler_with in E.
    rewrite M in E.
    change (Str.eqb #"POST" #"OPTIONS") with false in E.
    change (Str.eqb #"POST" #"GET") with false in E.
    change (Str.eqb #"POST" #"POST") with true in E.
    cbv iota in E. rewrite !post_unfold in E.
    destruct B as [B|B]; rewrite B in E; vm_compute in E;
      discriminate E.
Qed.
